(** * syzygy_blunders: the adaptive probe of scripts/syzygy_blunders.py

    A shallow embedding of [maybe_analyse_board] and of the two input loops
    of [main], with the properties of the probe proved over it.

    - Python integers are [Z]; Python floats are binary64 values, taken
      from the Standard Library's [spec_float] (53 bits of mantissa,
      exponent limit 1024), so that the arithmetic computes.
    - Exceptions are an error monad over the state of the outside world:
      the engine process, the random source and the chronological trace of
      what the program wrote, printed, searched and drew.
    - python-chess, the tablebase, the engine and the C library appear
      through the interface [External]. *)

From Stdlib Require Import ZArith Bool Ascii String Lia List.
From Stdlib Require Import Floats.SpecFloat.
Import ListNotations.

Local Open Scope Z_scope.

(** ** Python exceptions and results *)

Inductive exn : Type :=
| ZeroDivisionError
| OverflowError
| ValueError
| TypeError
| UnboundLocalError.

Inductive res (A : Type) : Type :=
| Ret (a : A)
| Raise (e : exn).

Arguments Ret {A} a.
Arguments Raise {A} e.

(** ** Python floats *)

Module PyFloat.

Definition float : Type := spec_float.

Definition prec : Z := 53.
Definition emax : Z := 1024.

Definition zero : float := S754_zero false.
Definition one : float := SFone prec emax.

Definition is_nan (f : float) : bool :=
  match f with S754_nan => true | _ => false end.

Definition is_inf (f : float) : bool :=
  match f with S754_infinity _ => true | _ => false end.

(** [f == 0.0], [f < 0.0], [0.0 < f] *)
Definition is_zero (f : float) : bool := SFeqb f zero.
Definition is_neg (f : float) : bool := SFltb f zero.
Definition is_pos (f : float) : bool := SFltb zero f.

(** [f == floor(f)] for a float *)
Definition is_integer (f : float) : bool :=
  match f with
  | S754_zero _ => true
  | S754_finite _ m e => (0 <=? e) || (Z.pos m mod 2 ^ (- e) =? 0)
  | _ => false
  end.

(** [fmod(fabs(f), 2.0) == 1.0] *)
Definition is_odd_integer (f : float) : bool :=
  match f with
  | S754_finite _ m e =>
      if 0 <? e then false
      else (Z.pos m mod 2 ^ (- e) =? 0) && Z.odd (Z.pos m / 2 ^ (- e))
  | _ => false
  end.

(** The conversion of an [int] to a [float]: correctly rounded, and
    [OverflowError] beyond the range of a double. *)
Definition of_int (a : Z) : res float :=
  match binary_normalize prec emax a 0 false with
  | S754_infinity _ => Raise OverflowError
  | f => Ret f
  end.

(** [a / b] on two [int]s: the correctly rounded quotient;
    [ZeroDivisionError] when [b] is zero, [OverflowError] when the
    quotient is too large for a double. *)
Definition int_true_div (a b : Z) : res float :=
  if b =? 0 then Raise ZeroDivisionError
  else
    let s := xorb (a <? 0) (b <? 0) in
    if a =? 0 then Ret (S754_zero s)
    else
      let '(q, e, l) := SFdiv_core_binary prec emax (Z.abs a) 0 (Z.abs b) 0 in
      match binary_round_aux prec emax s q e l with
      | S754_infinity _ => Raise OverflowError
      | f => Ret f
      end.

(** The value of [x ** p]: a float or, for a negative base and a
    fractional exponent, a complex number (whose components no later
    step of the program looks at). *)
Inductive pyval : Type :=
| VFloat (f : float)
| VComplex.

Section Pow.
(** The platform's [pow] of the C library. *)
Variable libm_pow : float -> float -> float.

(** [iv ** iw] on two floats, case by case as CPython sorts them out
    before it calls the platform's [pow]. *)
Definition float_pow (iv iw : float) : res pyval :=
  if is_zero iw then Ret (VFloat one)
  else if is_nan iv then Ret (VFloat iv)
  else if is_nan iw then Ret (VFloat (if SFeqb iv one then one else iw))
  else if is_inf iw then
    let av := SFabs iv in
    if SFeqb av one then Ret (VFloat one)
    else if Bool.eqb (is_pos iw) (SFltb one av) then Ret (VFloat (SFabs iw))
    else Ret (VFloat zero)
  else if is_inf iv then
    let odd := is_odd_integer iw in
    if is_pos iw then Ret (VFloat (if odd then iv else SFabs iv))
    else Ret (VFloat (if odd then S754_zero (is_neg iv) else zero))
  else if is_zero iv then
    if is_neg iw then Raise ZeroDivisionError
    else Ret (VFloat (if is_odd_integer iw then iv else zero))
  else if is_neg iv && negb (is_integer iw) then Ret VComplex
  else
    let negate_result := is_neg iv && is_odd_integer iw in
    let av := SFabs iv in
    if SFeqb av one
    then Ret (VFloat (if negate_result then SFopp one else one))
    else
      let ix := libm_pow av iw in
      let ix := if negate_result then SFopp ix else ix in
      if is_inf ix then Raise OverflowError else Ret (VFloat ix).
End Pow.

(** [a * v] for an [int] [a] *)
Definition int_mul (a : Z) (v : pyval) : res pyval :=
  match of_int a with
  | Raise e => Raise e
  | Ret f =>
      match v with
      | VFloat g => Ret (VFloat (SFmul prec emax f g))
      | VComplex => Ret VComplex
      end
  end.

(** The integer nearest to [m * 2^e], ties to the even one. *)
Definition round_half_even (m : positive) (e : Z) : Z :=
  if 0 <=? e then Z.pos m * 2 ^ e
  else
    let d := 2 ^ (- e) in
    let q := Z.pos m / d in
    let r := Z.pos m mod d in
    match 2 * r ?= d with
    | Lt => q
    | Gt => q + 1
    | Eq => if Z.even q then q else q + 1
    end.

(** [round(v)] with one argument *)
Definition round (v : pyval) : res Z :=
  match v with
  | VComplex => Raise TypeError
  | VFloat S754_nan => Raise ValueError
  | VFloat (S754_infinity _) => Raise OverflowError
  | VFloat (S754_zero _) => Ret 0
  | VFloat (S754_finite s m e) => Ret (cond_Zopp s (round_half_even m e))
  end.

End PyFloat.

Import PyFloat.

(** ** The outside world *)

(** What the program uses and does not define: the python-chess board, the
    Syzygy tablebase, the UCI engine, the [random] module and the C
    library's [pow]. *)
Class External : Type := {
  Board : Type;
  Move : Type;
  (** [board.is_game_over()], [board.halfmove_clock],
      [board.fullmove_number], [board.push(move)] *)
  is_game_over : Board -> bool;
  halfmove_clock : Board -> Z;
  fullmove_number : Board -> Z;
  push : Board -> Move -> Board;
  (** [chess.Board()] followed by [board.set_epd(line)]; [None] when the
      line does not parse *)
  set_epd : string -> option Board;
  (** [tb.get_dtz(board)] *)
  get_dtz : Board -> option Z;
  (** [engine.analyse(board, Limit(nodes=n), game=board)] on a live
      engine, reduced to [info["score"].relative.score(mate_score=40000)]
      when [info] has a score and to [None] when it has not *)
  Engine : Type;
  analyse : Engine -> Board -> Z -> option Z * Engine;
  (** [random.uniform(0.0, 100.0)] *)
  Random : Type;
  uniform : Random -> float * Random;
  libm_pow : float -> float -> float
}.

(** The options of the command line that the loops read. *)
Record Args : Type := {
  max_nodes : Z;
  min_nodes : Z;
  iters : Z;
  draw : Z;
  win : Z;
  rate : float
}.

(** ["Board %7d" % count] and ["Game %7d" % count] *)
Inductive test_id : Type :=
| BoardId (count : Z)
| GameId (count : Z).

Inductive stream : Type :=
| SampleFile
| MisevalFile.

Section Program.
Context {X : External}.

(** A line of an EPD file, as the arguments of [board.epd(...)]: the
    position, [hmvc], [fmvn], and the operands [c0] and [ce] ([None]
    for an operand that is absent or is Python's [None]). *)
Record epd_line : Type := {
  epd_board : Board;
  hmvc : Z;
  fmvn : Z;
  c0 : option string;
  ce : option Z
}.

(** The arguments of the four [print] calls. *)
Inductive message : Type :=
| Analyzing (id : test_id) (board : Board) (result : string)
| Error
| Solved (cur_nodes : Z) (score_cp : Z)
| Unsolved (max_nodes : Z) (last_eval : Z).

(** What the program does to the outside, in the order it does it.
    [Call] is a ghost event: it marks a call of [maybe_analyse_board]
    by one of the loops of [main]. *)
Inductive event : Type :=
| Call (id : test_id) (board : Board)
| Write (f : stream) (line : epd_line)
| Flush (f : stream)
| Print (msg : message)
| Analyse (board : Board) (nodes : Z) (info : option Z)
| Uniform (u : float).

Record world : Type := {
  engine : Engine;
  rng : Random;
  trace : list event
}.

(** *** The monad of the program *)

Definition M (A : Type) : Type := world -> res A * world.

Definition ret {A} (a : A) : M A := fun w => (Ret a, w).

Definition raise {A} (e : exn) : M A := fun w => (Raise e, w).

Definition bind {A B} (m : M A) (k : A -> M B) : M B :=
  fun w =>
    match m w with
    | (Ret a, w') => k a w'
    | (Raise e, w') => (Raise e, w')
    end.

Definition lift {A} (r : res A) : M A := fun w => (r, w).

Definition emit (ev : event) : M unit :=
  fun w =>
    (Ret tt, {| engine := engine w; rng := rng w; trace := trace w ++ [ev] |}).

Definition engine_analyse (board : Board) (nodes : Z) : M (option Z) :=
  fun w =>
    let '(info, e') := analyse (engine w) board nodes in
    (Ret info,
     {| engine := e'; rng := rng w;
        trace := trace w ++ [Analyse board nodes info] |}).

Definition random_uniform : M float :=
  fun w =>
    let '(u, g') := uniform (rng w) in
    (Ret u, {| engine := engine w; rng := g'; trace := trace w ++ [Uniform u] |}).

End Program.

Declare Scope prog_scope.
Delimit Scope prog_scope with prog.
Notation "x <- m ;; k" := (bind m (fun x => k))
  (at level 61, m at next level, right associativity) : prog_scope.
Notation "m ;;; k" := (bind m (fun _ => k))
  (at level 61, right associativity) : prog_scope.

Section MaybeAnalyseBoard.
Context {X : External}.
Local Open Scope string_scope.
Local Open Scope Z_scope.
Local Open Scope prog_scope.

(** [range(n)] *)
Definition range (n : Z) : list Z := map Z.of_nat (seq 0 (Z.to_nat n)).

(** Line 24: the verdict of the tablebase. *)
Definition ground_truth (dtz : Z) : string :=
  if (Z.abs dtz >? 100) || (dtz =? 0) then "="
  else if dtz >? 0 then "+" else "-".

(** Lines 43-45: the node count of iteration [n]. *)
Definition cur_nodes (args : Args) (n : Z) : res Z :=
  match int_true_div n (iters args - 1) with
  | Raise e => Raise e
  | Ret p =>
      match int_true_div (max_nodes args) (min_nodes args) with
      | Raise e => Raise e
      | Ret x =>
          match float_pow libm_pow x p with
          | Raise e => Raise e
          | Ret v =>
              match int_mul (min_nodes args) v with
              | Raise e => Raise e
              | Ret y => round y
              end
          end
      end
  end.

(** Lines 61-63: is the score the one of a correctly evaluated
    position? *)
Definition correctly_evaluated (result : string) (score_cp : Z) (args : Args)
  : bool :=
  (String.eqb result "=" && (Z.abs score_cp <? draw args))
  || (String.eqb result "+" && (score_cp >? win args))
  || (String.eqb result "-" && (score_cp <? - win args)).

(** Lines 73-81: the kind of miseval. [score_cp] is [None] while the
    local has not been bound: reading it then is an
    [UnboundLocalError]. *)
Definition miseval_type (result : string) (score_cp : option Z) (args : Args)
  : res string :=
  if String.eqb result "=" then
    match score_cp with
    | None => Raise UnboundLocalError
    | Some sc =>
        if sc >? draw args then Ret "Optimistic draw eval"
        else Ret "Pessimistic draw eval"
    end
  else if String.eqb result "+" then Ret "Blind to win"
  else Ret "Blind to loss".

(** How the [for] loop of lines 37-68 ends: by one of its two [return]s,
    or by running out of iterations, with the locals [last_eval] and
    [score_cp] as they then are ([None] for [score_cp]: not bound). *)
Inductive loop_exit : Type :=
| Returned
| Fallthrough (last_eval : option Z) (score_cp : option Z).

(** Lines 37-68. [board_copy] is [board]: the copy only makes python-chess
    announce a new game to the engine before the search. *)
Fixpoint search_loop (board : Board) (result : string) (args : Args)
    (ns : list Z) (last_eval score_cp : option Z) : M loop_exit :=
  match ns with
  | [] => ret (Fallthrough last_eval score_cp)
  | n :: ns' =>
      nodes <- lift (cur_nodes args n) ;;
      info <- engine_analyse board nodes ;;
      match info with
      | None => emit (Print Error) ;;; ret Returned
      | Some sc =>
          if correctly_evaluated result sc args
          then emit (Print (Solved nodes sc)) ;;; ret Returned
          else search_loop board result args ns' (Some sc) (Some sc)
      end
  end.

(** [board.epd(hmvc=board.halfmove_clock, fmvn=board.fullmove_number, ...)] *)
Definition epd (board : Board) (c0 : option string) (ce : option Z)
  : epd_line :=
  {| epd_board := board; hmvc := halfmove_clock board;
     fmvn := fullmove_number board; c0 := c0; ce := ce |}.

(** Lines 70-94, after the loop. *)
Definition report_miseval (board : Board) (result : string) (args : Args)
    (last_eval score_cp : option Z) : M unit :=
  ty <- lift (miseval_type result score_cp args) ;;
  emit (Write MisevalFile (epd board (Some ty) last_eval)) ;;;
  emit (Flush MisevalFile) ;;;
  match last_eval with
  | None => raise TypeError
  | Some le => emit (Print (Unsolved (max_nodes args) le))
  end.

Definition maybe_analyse_board (board : Board) (id : test_id) (args : Args)
  : M unit :=
  if is_game_over board then ret tt
  else
    match get_dtz board with
    | None => ret tt
    | Some dtz =>
        let result := ground_truth dtz in
        emit (Write SampleFile (epd board None None)) ;;;
        emit (Flush SampleFile) ;;;
        emit (Print (Analyzing id board result)) ;;;
        ex <- search_loop board result args (range (iters args)) None None ;;
        match ex with
        | Returned => ret tt
        | Fallthrough last_eval score_cp =>
            report_miseval board result args last_eval score_cp
        end
    end.

End MaybeAnalyseBoard.

(** ** The two loops of [main] *)

Section Main.
Context {X : External}.
Local Open Scope Z_scope.
Local Open Scope prog_scope.

(** Lines 213-217: the lines of one EPD file; the value is [count]. *)
Fixpoint analyse_epd_file (lines : list string) (args : Args) (count : Z)
  : M Z :=
  match lines with
  | [] => ret count
  | line :: rest =>
      let count := count + 1 in
      board <- match set_epd line with
               | None => raise ValueError
               | Some b => ret b
               end ;;
      emit (Call (BoardId count) board) ;;;
      maybe_analyse_board board (BoardId count) args ;;;
      analyse_epd_file rest args count
  end.

(** Lines 211-219 *)
Fixpoint analyse_epd_list (files : list (list string)) (args : Args)
    (count : Z) : M Z :=
  match files with
  | [] => ret count
  | epd_file :: rest =>
      count <- analyse_epd_file epd_file args count ;;
      analyse_epd_list rest args count
  end.

(** A game of a PGN file: [game.board()] and [game.mainline_moves()]. *)
Record Game : Type := {
  game_board : Board;
  mainline_moves : list Move
}.

(** Lines 230-236: the moves of one game, from the position [board]. *)
Fixpoint analyse_mainline (board : Board) (moves : list Move) (id : test_id)
    (args : Args) : M unit :=
  match moves with
  | [] => ret tt
  | move :: rest =>
      let board := push board move in
      u <- random_uniform ;;
      (if SFleb u (rate args)
       then emit (Call id board) ;;; maybe_analyse_board board id args
       else ret tt) ;;;
      analyse_mainline board rest id args
  end.

(** Lines 224-238: the games that [read_game] finds in one PGN file. *)
Fixpoint analyse_pgn_file (games : list Game) (args : Args) (count : Z)
  : M Z :=
  match games with
  | [] => ret count
  | game :: rest =>
      let count := count + 1 in
      analyse_mainline (game_board game) (mainline_moves game)
                       (GameId count) args ;;;
      analyse_pgn_file rest args count
  end.

(** Lines 222-240 *)
Fixpoint analyse_pgn_list (files : list (list Game)) (args : Args)
    (count : Z) : M Z :=
  match files with
  | [] => ret count
  | pgn_file :: rest =>
      count <- analyse_pgn_file pgn_file args count ;;
      analyse_pgn_list rest args count
  end.

(** Lines 210-240 of [main]: the two loops, between the opening of the
    engine and of the two output files and the final cleanup. *)
Definition main (epd_list : list (list string))
    (pgn_list : list (list Game)) (args : Args) : M unit :=
  analyse_epd_list epd_list args 0 ;;;
  analyse_pgn_list pgn_list args 0 ;;;
  ret tt.

End Main.

(** ** The tablebase directories *)

(** Line 11: [";" if platform.system() == "Windows" else ":"], for the
    value [system] of [platform.system()]. *)
Definition PATH_SEPARATOR (system : string) : Ascii.ascii :=
  if String.eqb system "Windows" then ";"%char else ":"%char.

(** [s.split(sep)] for a separator of one character. *)
Fixpoint split (sep : Ascii.ascii) (s : string) : list string :=
  match s with
  | EmptyString => [EmptyString]
  | String c rest =>
      if Ascii.eqb c sep then EmptyString :: split sep rest
      else
        match split sep rest with
        | [] => [String c EmptyString]
        | part :: parts => String c part :: parts
        end
  end.

(** Lines 197-199: the arguments of the calls of [tb.add_directory], in
    the order of the loop, for the option [syzygy_path]. *)
Definition tablebase_directories (system syzygy_path : string) : list string :=
  split (PATH_SEPARATOR system) syzygy_path.

(** [sep.join(parts)], the inverse that the properties of [split] are
    stated with. *)
Fixpoint join (sep : Ascii.ascii) (parts : list string) : string :=
  match parts with
  | [] => EmptyString
  | [part] => part
  | part :: rest => String.append part (String sep (join sep rest))
  end.

(** The number of occurrences of [c] in [s], and whether there is one. *)
Fixpoint occurrences (c : Ascii.ascii) (s : string) : nat :=
  match s with
  | EmptyString => O
  | String c' rest =>
      if Ascii.eqb c' c then S (occurrences c rest) else occurrences c rest
  end.

Definition free_of (c : Ascii.ascii) (s : string) : Prop :=
  occurrences c s = O.

(** ** The vocabulary of the properties *)

(** The verdicts and the labels as the specification names them, and
    their spelling in the program. *)
Inductive GroundTruth : Type := Win | Loss | Draw | Unknown.

Inductive Label : Type :=
| OptimisticDraw
| PessimisticDraw
| BlindToWin
| BlindToLoss.

Definition symbol (g : GroundTruth) : string :=
  match g with
  | Draw => "="
  | Win => "+"
  | Loss => "-"
  | Unknown => ""
  end.

Definition label_text (l : Label) : string :=
  match l with
  | OptimisticDraw => "Optimistic draw eval"
  | PessimisticDraw => "Pessimistic draw eval"
  | BlindToWin => "Blind to win"
  | BlindToLoss => "Blind to loss"
  end.

(** The test of a solved position, in the words of the specification. *)
Definition spec_solved (g : GroundTruth) (score : Z) (args : Args) : Prop :=
  (g = Draw /\ Z.abs score < draw args)
  \/ (g = Win /\ score > win args)
  \/ (g = Loss /\ score < - win args).

(** The label of a failure, in the words of the specification. *)
Definition spec_label (g : GroundTruth) (final_score : Z) (args : Args)
  : option Label :=
  match g with
  | Draw => Some (if final_score >? draw args then OptimisticDraw
                  else PessimisticDraw)
  | Win => Some BlindToWin
  | Loss => Some BlindToLoss
  | Unknown => None
  end.

Definition stream_eqb (f f' : stream) : bool :=
  match f, f' with
  | SampleFile, SampleFile => true
  | MisevalFile, MisevalFile => true
  | _, _ => false
  end.

Section Vocabulary.
Context {X : External}.

(** The classification of a position as lines 14-24 make it, with the
    names of the specification for its verdicts: [Unknown] is a position
    that the code returns from without a probe. The terminal test is the
    code's own, [board.is_game_over()]. *)
Definition spec_classify (board : Board) : GroundTruth :=
  if is_game_over board then Unknown
  else
    match get_dtz board with
    | None => Unknown
    | Some dtz =>
        if (dtz =? 0) || (Z.abs dtz >? 100) then Draw
        else if dtz >? 0 then Win
        else Loss
    end.

(** What a probe does before its first search. *)
Definition probe_prefix (board : Board) (id : test_id) (result : string)
  : list event :=
  [Write SampleFile (epd board None None); Flush SampleFile;
   Print (Analyzing id board result)].

(** The searches of a list of steps; a step is the pair of a node count
    and of the score that the engine reported for it. *)
Definition searches (board : Board) (steps : list (Z * Z)) : list event :=
  map (fun p => Analyse board (fst p) (Some (snd p))) steps.

(** The node counts of [steps] are those of the iterations [k], [k+1],
    ... in this order. *)
Fixpoint budgets_from (args : Args) (k : nat) (steps : list (Z * Z)) : Prop :=
  match steps with
  | [] => True
  | p :: rest =>
      cur_nodes args (Z.of_nat k) = Ret (fst p)
      /\ budgets_from args (S k) rest
  end.

(** The engine, from the state [e], answers the searches of [steps] one
    after the other with their scores, and is left in the state [e']. *)
Fixpoint answers (e : Engine) (board : Board) (steps : list (Z * Z))
    (e' : Engine) : Prop :=
  match steps with
  | [] => e' = e
  | p :: rest =>
      exists e1,
        analyse e board (fst p) = (Some (snd p), e1)
        /\ answers e1 board rest e'
  end.

Definition unsolved (result : string) (args : Args) (p : Z * Z) : Prop :=
  correctly_evaluated result (snd p) args = false.

(** The score of the last step, or [d] when there is none. *)
Definition last_score (steps : list (Z * Z)) (d : option Z) : option Z :=
  fold_left (fun _ p => Some (snd p)) steps d.

(** The world [w] after the events [evs], with the engine in [e]. *)
Definition advance (w : world) (e : Engine) (evs : list event) : world :=
  {| engine := e; rng := rng w; trace := trace w ++ evs |}.

(** How a run of the loop over [m] iterations ends after the unsolved
    steps [steps]: its result, and the events after the searches of
    [steps]. *)
Inductive loop_tail (board : Board) (result : string) (args : Args)
    (m : nat) (steps : list (Z * Z)) (le sp : option Z)
  : res loop_exit -> list event -> Prop :=
| tail_exhausted :
    length steps = m ->
    loop_tail board result args m steps le sp
      (Ret (Fallthrough (last_score steps le) (last_score steps sp))) []
| tail_solved (nodes sc : Z) :
    (length steps < m)%nat ->
    correctly_evaluated result sc args = true ->
    loop_tail board result args m steps le sp
      (Ret Returned) [Analyse board nodes (Some sc); Print (Solved nodes sc)]
| tail_error (nodes : Z) :
    (length steps < m)%nat ->
    loop_tail board result args m steps le sp
      (Ret Returned) [Analyse board nodes None; Print Error]
| tail_raise (e : exn) :
    (length steps < m)%nat ->
    loop_tail board result args m steps le sp (Raise e) [].

(** How a probe ends after the unsolved steps [steps]. *)
Inductive probe_tail (board : Board) (result : string) (args : Args)
    (steps : list (Z * Z)) : res unit -> list event -> Prop :=
| probe_solved (nodes sc : Z) :
    (length steps < Z.to_nat (iters args))%nat ->
    correctly_evaluated result sc args = true ->
    probe_tail board result args steps
      (Ret tt) [Analyse board nodes (Some sc); Print (Solved nodes sc)]
| probe_error (nodes : Z) :
    (length steps < Z.to_nat (iters args))%nat ->
    probe_tail board result args steps
      (Ret tt) [Analyse board nodes None; Print Error]
| probe_raise (e : exn) :
    (length steps < Z.to_nat (iters args))%nat ->
    probe_tail board result args steps (Raise e) []
| probe_unbound (e : exn) :
    length steps = Z.to_nat (iters args) ->
    miseval_type result (last_score steps None) args = Raise e ->
    probe_tail board result args steps (Raise e) []
| probe_no_eval (ty : string) :
    length steps = Z.to_nat (iters args) ->
    miseval_type result (last_score steps None) args = Ret ty ->
    last_score steps None = None ->
    probe_tail board result args steps (Raise TypeError)
      [Write MisevalFile (epd board (Some ty) None); Flush MisevalFile]
| probe_unsolved (ty : string) (final : Z) :
    length steps = Z.to_nat (iters args) ->
    miseval_type result (last_score steps None) args = Ret ty ->
    last_score steps None = Some final ->
    probe_tail board result args steps (Ret tt)
      [Write MisevalFile (epd board (Some ty) (Some final));
       Flush MisevalFile; Print (Unsolved (max_nodes args) final)].

(** The calls of [maybe_analyse_board] and the random draws of a trace. *)
Fixpoint calls (tr : list event) : list (test_id * Board) :=
  match tr with
  | [] => []
  | Call id board :: rest => (id, board) :: calls rest
  | _ :: rest => calls rest
  end.

Fixpoint draws (tr : list event) : list float :=
  match tr with
  | [] => []
  | Uniform u :: rest => u :: draws rest
  | _ :: rest => draws rest
  end.



(** The positions that the moves [moves] reach from [board], one for
    each move. *)
Fixpoint positions (board : Board) (moves : list Move) : list Board :=
  match moves with
  | [] => []
  | move :: rest => push board move :: positions (push board move) rest
  end.

(** The positions that the games of a PGN file reach, with the
    identifier of their game; [count] games came before. *)
Fixpoint file_candidates (games : list Game) (count : Z)
  : list (test_id * Board) :=
  match games with
  | [] => []
  | game :: rest =>
      map (fun b => (GameId (count + 1), b))
          (positions (game_board game) (mainline_moves game))
      ++ file_candidates rest (count + 1)
  end.



(** The board [b] is reached from [board] by a first move and by those
    that follow it in [moves], up to some point. *)
Definition behind_a_move (board : Board) (moves : list Move) (b : Board)
  : Prop :=
  exists pre move post,
    moves = pre ++ move :: post
    /\ b = fold_left push (pre ++ [move]) board.

(** The same, for one of the games [games]. *)
Definition behind_a_move_of (games : list Game) (b : Board) : Prop :=
  exists game,
    In game games
    /\ behind_a_move (game_board game) (mainline_moves game) b.

(** The records written to the file [f], the searches (position and
    node count) and the reports of a trace. *)
Fixpoint written (f : stream) (tr : list event) : list epd_line :=
  match tr with
  | [] => []
  | Write f' line :: rest =>
      if stream_eqb f f' then line :: written f rest else written f rest
  | _ :: rest => written f rest
  end.

Fixpoint searched (tr : list event) : list (Board * Z) :=
  match tr with
  | [] => []
  | Analyse board nodes _ :: rest => (board, nodes) :: searched rest
  | _ :: rest => searched rest
  end.

Fixpoint printed (tr : list event) : list message :=
  match tr with
  | [] => []
  | Print msg :: rest => msg :: printed rest
  | _ :: rest => printed rest
  end.

(** Is every write of the trace followed at once by the flush of its
    file? [pending] is the file of a write that still waits for it. *)
Fixpoint flush_scan (pending : option stream) (tr : list event) : bool :=
  match tr with
  | [] => match pending with None => true | Some _ => false end
  | ev :: rest =>
      match pending, ev with
      | Some f, Flush f' => stream_eqb f f' && flush_scan None rest
      | Some _, _ => false
      | None, Write f _ => flush_scan (Some f) rest
      | None, _ => flush_scan None rest
      end
  end.

Definition flushed_at_once (tr : list event) : Prop :=
  flush_scan None tr = true.

(** The report that ends a probe. *)
Definition is_report (msg : message) : bool :=
  match msg with
  | Analyzing _ _ _ => false
  | _ => true
  end.

Definition is_unsolved (msg : message) : bool :=
  match msg with
  | Unsolved _ _ => true
  | _ => false
  end.

End Vocabulary.

(** ** What ends a game *)

(** python-chess: the ways in which a game is over for
    [board.is_game_over()], called without a claim of a draw as line 15
    calls it. *)
Record Termination : Type := {
  checkmate : bool;
  stalemate : bool;
  insufficient_material : bool;
  seventyfive_moves : bool;
  fivefold_repetition : bool
}.

Definition game_over (t : Termination) : bool :=
  checkmate t || insufficient_material t || stalemate t
  || seventyfive_moves t || fivefold_repetition t.

(** The boards of [X] with python-chess's reading of
    [board.is_game_over()]. *)
Class Rules (X : External) : Type := {
  termination : Board -> Termination;
  is_game_over_rules :
    forall board, is_game_over board = game_over (termination board)
}.

(** The classification in the words of the claim, for which only
    checkmate and stalemate are terminal. *)
Definition claimed_classify {X : External} {R : Rules X} (board : Board)
  : GroundTruth :=
  if checkmate (termination board) || stalemate (termination board)
  then Unknown
  else
    match get_dtz board with
    | None => Unknown
    | Some dtz =>
        if (dtz =? 0) || (Z.abs dtz >? 100) then Draw
        else if dtz >? 0 then Win
        else Loss
    end.

(** ** A scripted outside world, to run the model *)

(** The engine and the random source read their answers from a script;
    a board is the number that the tablebase gives for it, 1000 is a
    finished game and 2000 a position that the tablebase does not have;
    [pow] is computed from square roots on the exponents 1/4, 1/2 and 3/4
    and is the identity on the exponent 1. *)
Module Scripted.

Definition half : float := S754_finite false 4503599627370496 (-53).
Definition quarter : float := S754_finite false 4503599627370496 (-54).
Definition three_quarters : float := S754_finite false 6755399441055744 (-53).

Definition sqrt (x : float) : float := SFsqrt prec emax x.

Definition pow (x p : float) : float :=
  if SFeqb p half then sqrt x
  else if SFeqb p quarter then sqrt (sqrt x)
  else if SFeqb p three_quarters then SFmul prec emax (sqrt x) (sqrt (sqrt x))
  else x.

(** The float of a small integer. *)
Definition of_Z (z : Z) : float := binary_normalize prec emax z 0 false.

Definition script {A} (d : A) (l : list A) : A * list A :=
  match l with
  | [] => (d, [])
  | a :: l' => (a, l')
  end.

Definition env : External := {|
  Board := Z;
  Move := Z;
  is_game_over := fun b => b =? 1000;
  halfmove_clock := fun _ => 0;
  fullmove_number := fun _ => 1;
  push := fun b m => b + m;
  set_epd := fun line => Some (Z.of_nat (String.length line));
  get_dtz := fun b => if b =? 2000 then None else Some b;
  Engine := list (option Z);
  analyse := fun e _ _ => script None e;
  Random := list float;
  uniform := fun g => script zero g;
  libm_pow := pow
|}.

Definition default_args : Args := {|
  max_nodes := 1000000;
  min_nodes := 10000;
  iters := 5;
  draw := 100;
  win := 200;
  rate := of_Z 20
|}.

(** The default options with a minimal node count of zero and two
    iterations. *)
Definition zero_min_args : Args := {|
  max_nodes := 1000000;
  min_nodes := 0;
  iters := 2;
  draw := 100;
  win := 200;
  rate := of_Z 20
|}.

(** The default options with one iteration. *)
Definition one_iter_args : Args := {|
  max_nodes := 1000000;
  min_nodes := 10000;
  iters := 1;
  draw := 100;
  win := 200;
  rate := of_Z 20
|}.

(** The default options without an iteration. *)
Definition no_iter_args : Args := {|
  max_nodes := 1000000;
  min_nodes := 10000;
  iters := 0;
  draw := 100;
  win := 200;
  rate := of_Z 20
|}.

(** The default options with the maximal node count equal to the
    minimal one. *)
Definition equal_args : Args := {|
  max_nodes := 10000;
  min_nodes := 10000;
  iters := 5;
  draw := 100;
  win := 200;
  rate := of_Z 20
|}.

(** The same world, except that the empty line does not parse. *)
Definition strict_env : External := {|
  Board := Z;
  Move := Z;
  is_game_over := fun b => b =? 1000;
  halfmove_clock := fun _ => 0;
  fullmove_number := fun _ => 1;
  push := fun b m => b + m;
  set_epd := fun line =>
    if String.eqb line "" then None else Some (Z.of_nat (String.length line));
  get_dtz := fun b => if b =? 2000 then None else Some b;
  Engine := list (option Z);
  analyse := fun e _ _ => script None e;
  Random := list float;
  uniform := fun g => script zero g;
  libm_pow := pow
|}.

Definition strict_start (e : list (option Z)) (g : list float)
  : @world strict_env :=
  @Build_world strict_env e g [].

(** In the scripted world the finished game 1000 is a checkmate. *)
Definition rules : Rules env := {|
  termination := fun b : @Board env =>
    {| checkmate := b =? 1000; stalemate := false;
       insufficient_material := false; seventyfive_moves := false;
       fivefold_repetition := false |};
  is_game_over_rules := fun b : @Board env =>
    match (b =? 1000) as c
          return c = ((((c || false) || false) || false) || false)
    with
    | true => eq_refl
    | false => eq_refl
    end
|}.

(** A world of bare endgames: the board 0 is king against king, a game
    over by insufficient material that the tablebase gives a DTZ of 0;
    every other board is a position in play whose DTZ is its number. *)
Definition kings_env : External := {|
  Board := Z;
  Move := Z;
  is_game_over := fun b => b =? 0;
  halfmove_clock := fun _ => 0;
  fullmove_number := fun _ => 1;
  push := fun b m => b + m;
  set_epd := fun line => Some (Z.of_nat (String.length line));
  get_dtz := fun b => Some b;
  Engine := list (option Z);
  analyse := fun e _ _ => script None e;
  Random := list float;
  uniform := fun g => script zero g;
  libm_pow := pow
|}.

Definition kings_rules : Rules kings_env := {|
  termination := fun b : @Board kings_env =>
    {| checkmate := false; stalemate := false;
       insufficient_material := b =? 0; seventyfive_moves := false;
       fivefold_repetition := false |};
  is_game_over_rules := fun b : @Board kings_env =>
    match (b =? 0) as c
          return c = ((((false || c) || false) || false) || false)
    with
    | true => eq_refl
    | false => eq_refl
    end
|}.

Definition kings_board (z : Z) : @Board kings_env := z.

Definition kings_start (e : list (option Z)) : @world kings_env :=
  @Build_world kings_env e [] [].

(** Node counts of opposite signs, with three iterations. *)
Definition mixed_sign_args : Args := {|
  max_nodes := 4;
  min_nodes := -4;
  iters := 3;
  draw := 100;
  win := 200;
  rate := of_Z 20
|}.

(** A minimal node count that no float holds, with two iterations. *)
Definition large_args : Args := {|
  max_nodes := 9007199254740993;
  min_nodes := 9007199254740993;
  iters := 2;
  draw := 100;
  win := 200;
  rate := of_Z 20
|}.

Definition board (z : Z) : @Board env := z.

Definition game (b : Z) (moves : list Z) : @Game env :=
  @Build_Game env b moves.

Definition state (e : list (option Z)) (g : list float)
    (tr : list (@event env)) : @world env :=
  @Build_world env e g tr.

Definition start (e : list (option Z)) (g : list float) : @world env :=
  state e g [].

End Scripted.

(** ** Where the node count can divide by zero *)

Section Budget.
Context {X : External}.

Lemma binary_round_aux_sign (s : bool) (mx ex : Z) (lx : location) :
  match binary_round_aux prec emax s mx ex lx with
  | S754_zero s' | S754_infinity s' | S754_finite s' _ _ => s' = s
  | S754_nan => True
  end.
Proof.
  unfold binary_round_aux.
  destruct (shr_fexp prec emax mx ex lx) as [mrs' e'].
  destruct (shr_fexp prec emax _ e' loc_Exact) as [mrs'' e''].
  destruct (shr_m mrs''); try destruct (Z.leb _ _); exact I || reflexivity.
Qed.

Lemma is_neg_sign (f : float) :
  is_neg f = match f with
             | S754_infinity s | S754_finite s _ _ => s
             | _ => false
             end.
Proof. destruct f as [s|s| |s m e]; try destruct s; reflexivity. Qed.

Lemma int_true_div_by_zero (a b : Z) :
  int_true_div a b = Raise ZeroDivisionError <-> b = 0.
Proof.
  unfold int_true_div. split.
  - destruct (Z.eqb_spec b 0) as [Hb|Hb]; [intros _; exact Hb|].
    destruct (a =? 0); [discriminate|].
    destruct (SFdiv_core_binary _ _ _ _ _ _) as [[q e] l].
    destruct (binary_round_aux _ _ _ _ _ _); discriminate.
  - intros ->. reflexivity.
Qed.

Lemma int_true_div_not_negative (a b : Z) (f : float) :
  0 <= a -> 0 < b -> int_true_div a b = Ret f -> is_neg f = false.
Proof.
  intros Ha Hb. unfold int_true_div.
  destruct (Z.eqb_spec b 0) as [H0|_]; [lia|].
  assert (Hs : xorb (a <? 0) (b <? 0) = false).
  { destruct (Z.ltb_spec a 0); destruct (Z.ltb_spec b 0); simpl; lia || reflexivity. }
  rewrite Hs.
  destruct (a =? 0); [intros [= <-]; reflexivity|].
  destruct (SFdiv_core_binary _ _ _ _ _ _) as [[q e] l].
  pose proof (binary_round_aux_sign false q e l) as Hsign.
  destruct (binary_round_aux _ _ _ _ _ _) as [s|s| |s m e'];
    intros [= <-]; rewrite is_neg_sign; try reflexivity; exact Hsign.
Qed.

Lemma float_pow_zero_division (pw : float -> float -> float) (x p : float) :
  float_pow pw x p = Raise ZeroDivisionError -> is_neg p = true.
Proof.
  unfold float_pow.
  repeat match goal with
         | |- context [if ?c then _ else _] => destruct c eqn:?; try discriminate
         end; auto.
Qed.

Lemma int_mul_zero_division (a : Z) (v : pyval) :
  int_mul a v <> Raise ZeroDivisionError.
Proof.
  unfold int_mul, of_int.
  destruct (binary_normalize _ _ _ _ _); destruct v; discriminate.
Qed.

Lemma round_zero_division (v : pyval) : round v <> Raise ZeroDivisionError.
Proof. destruct v as [[s|s| |s m e]|]; discriminate. Qed.

Lemma cur_nodes_zero_division (args : Args) (n : Z) :
  0 <= n -> 2 <= iters args ->
  cur_nodes args n = Raise ZeroDivisionError ->
  min_nodes args = 0.
Proof.
  intros Hn Hk. unfold cur_nodes.
  destruct (int_true_div n (iters args - 1)) as [p|e] eqn:Hp.
  - destruct (int_true_div (max_nodes args) (min_nodes args)) as [x|e] eqn:Hx.
    + destruct (float_pow libm_pow x p) as [v|e] eqn:Hv.
      * destruct (int_mul (min_nodes args) v) as [y|e] eqn:Hy.
        -- intros H. now destruct (round_zero_division y).
        -- intros [= ->]. now destruct (int_mul_zero_division (min_nodes args) v).
      * intros [= ->]. apply float_pow_zero_division in Hv.
        rewrite (int_true_div_not_negative n (iters args - 1) p) in Hv;
          [discriminate | assumption | lia | assumption].
    + intros [= ->]. now apply int_true_div_by_zero in Hx.
  - intros [= ->]. apply int_true_div_by_zero in Hp. lia.
Qed.

Lemma cur_nodes_one_iteration (args : Args) (n : Z) :
  iters args = 1 -> cur_nodes args n = Raise ZeroDivisionError.
Proof.
  intros Hk. unfold cur_nodes.
  replace (iters args - 1) with 0 by lia.
  now rewrite (proj2 (int_true_div_by_zero n 0) eq_refl).
Qed.

End Budget.

(** ** The probe of one position *)

Section Probe.
Context {X : External}.

Lemma advance_nil (w : world) : advance w (engine w) [] = w.
Proof. destruct w as [e g tr]. unfold advance. simpl. now rewrite app_nil_r. Qed.

Lemma advance_advance (w : world) (e1 e2 : Engine) (t1 t2 : list event) :
  advance (advance w e1 t1) e2 t2 = advance w e2 (t1 ++ t2).
Proof. unfold advance. simpl. now rewrite app_assoc. Qed.

Lemma bind_ret {A B} (m : M A) (k : A -> M B) (w w' : world) (a : A) :
  m w = (Ret a, w') -> bind m k w = k a w'.
Proof. unfold bind. now intros ->. Qed.

Lemma bind_raise {A B} (m : M A) (k : A -> M B) (w w' : world) (e : exn) :
  m w = (Raise e, w') -> bind m k w = (Raise e, w').
Proof. unfold bind. now intros ->. Qed.

Lemma emit_advance (ev : event) (w : world) :
  emit ev w = (Ret tt, advance w (engine w) [ev]).
Proof. reflexivity. Qed.

Lemma engine_analyse_advance (board : Board) (nodes : Z) (w : world)
    (info : option Z) (e' : Engine) :
  analyse (engine w) board nodes = (info, e') ->
  engine_analyse board nodes w
  = (Ret info, advance w e' [Analyse board nodes info]).
Proof. unfold engine_analyse. now intros ->. Qed.

(** One iteration of the loop, by what the engine reports. *)
Lemma search_loop_cons (board : Board) (result : string) (args : Args)
    (n : Z) (ns : list Z) (le sp : option Z) (w : world) :
  search_loop board result args (n :: ns) le sp w
  = match cur_nodes args n with
    | Raise e => (Raise e, w)
    | Ret nodes =>
        let '(info, e') := analyse (engine w) board nodes in
        match info with
        | None =>
            (Ret Returned,
             advance w e' [Analyse board nodes None; Print Error])
        | Some sc =>
            if correctly_evaluated result sc args
            then (Ret Returned,
                  advance w e' [Analyse board nodes (Some sc);
                                Print (Solved nodes sc)])
            else search_loop board result args ns (Some sc) (Some sc)
                   (advance w e' [Analyse board nodes (Some sc)])
        end
    end.
Proof.
  simpl. unfold bind at 1, lift.
  destruct (cur_nodes args n) as [nodes|e]; [|reflexivity].
  unfold bind at 1, engine_analyse.
  destruct (analyse (engine w) board nodes) as [[sc|] e'].
  - destruct (correctly_evaluated result sc args); [|reflexivity].
    unfold bind, emit, ret, advance. simpl. now rewrite <- app_assoc.
  - unfold bind, emit, ret, advance. simpl. now rewrite <- app_assoc.
Qed.

(** The loop goes through unsolved steps. *)
Lemma search_loop_steps (board : Board) (result : string) (args : Args)
    (steps : list (Z * Z)) :
  forall (k : nat) (rest : list Z) (le sp : option Z) (w : world) (e' : Engine),
    budgets_from args k steps ->
    answers (engine w) board steps e' ->
    Forall (unsolved result args) steps ->
    search_loop board result args
      (map Z.of_nat (seq k (length steps)) ++ rest) le sp w
    = search_loop board result args rest
        (last_score steps le) (last_score steps sp)
        (advance w e' (searches board steps)).
Proof.
  induction steps as [|[nodes sc] steps IH]; intros k rest le sp w e' Hb Ha Hu.
  - simpl in Ha. subst e'. simpl. now rewrite advance_nil.
  - destruct Hb as [Hb1 Hb]. destruct Ha as [e1 [Ha1 Ha]].
    inversion Hu as [|? ? Hu1 Hu']; subst.
    cbn [length seq map app].
    rewrite search_loop_cons. simpl in Hb1, Ha1. rewrite Hb1, Ha1.
    unfold unsolved in Hu1. simpl in Hu1. rewrite Hu1.
    rewrite (IH (S k) rest (Some sc) (Some sc)
               (advance w e1 [Analyse board nodes (Some sc)]) e' Hb Ha Hu').
    now rewrite advance_advance.
Qed.

(** The shape of every run of the loop. *)
Lemma search_loop_shape (board : Board) (result : string) (args : Args)
    (m : nat) :
  forall (k : nat) (le sp : option Z) (w w' : world) (r : res loop_exit),
    search_loop board result args (map Z.of_nat (seq k m)) le sp w = (r, w') ->
    exists steps e' tail,
      w' = advance w e' (searches board steps ++ tail)
      /\ Forall (unsolved result args) steps
      /\ budgets_from args k steps
      /\ loop_tail board result args m steps le sp r tail.
Proof.
  induction m as [|m IH]; intros k le sp w w' r Hrun.
  - simpl in Hrun. injection Hrun as <- <-.
    exists [], (engine w), []. rewrite advance_nil.
    repeat split; try constructor. reflexivity.
  - cbn [seq map] in Hrun. rewrite search_loop_cons in Hrun.
    destruct (cur_nodes args (Z.of_nat k)) as [nodes|e] eqn:Hn.
    + destruct (analyse (engine w) board nodes) as [[sc|] e1] eqn:Ha.
      * destruct (correctly_evaluated result sc args) eqn:Hc.
        -- injection Hrun as <- <-.
           exists [], e1, [Analyse board nodes (Some sc); Print (Solved nodes sc)].
           repeat split; try constructor; simpl; auto; lia.
        -- apply IH in Hrun.
           destruct Hrun as (steps & e' & tail & Hw & Hu & Hb & Ht).
           exists ((nodes, sc) :: steps), e', tail.
           split; [|split; [|split]].
           ++ rewrite Hw, advance_advance. reflexivity.
           ++ constructor; assumption.
           ++ split; assumption.
           ++ inversion Ht; subst; simpl.
              ** change (last_score steps (Some sc))
                   with (last_score ((nodes, sc) :: steps) le) at 1.
                 change (last_score steps (Some sc))
                   with (last_score ((nodes, sc) :: steps) sp).
                 now constructor.
              ** constructor; simpl; auto; lia.
              ** constructor; simpl; lia.
              ** constructor; simpl; lia.
      * injection Hrun as <- <-.
        exists [], e1, [Analyse board nodes None; Print Error].
        repeat split; try constructor; simpl; lia.
    + injection Hrun as <- <-.
      exists [], (engine w), []. rewrite advance_nil.
      repeat split; try constructor; simpl; lia.
Qed.

Lemma report_miseval_run (board : Board) (result : string) (args : Args)
    (le sp : option Z) (w : world) :
  report_miseval board result args le sp w
  = match miseval_type result sp args with
    | Raise e => (Raise e, w)
    | Ret ty =>
        match le with
        | None =>
            (Raise TypeError,
             advance w (engine w)
               [Write MisevalFile (epd board (Some ty) None);
                Flush MisevalFile])
        | Some final =>
            (Ret tt,
             advance w (engine w)
               [Write MisevalFile (epd board (Some ty) (Some final));
                Flush MisevalFile; Print (Unsolved (max_nodes args) final)])
        end
    end.
Proof.
  unfold report_miseval, bind, lift, emit, raise, advance.
  destruct (miseval_type result sp args) as [ty|e]; [|reflexivity].
  destruct le as [final|]; simpl; repeat rewrite <- app_assoc; reflexivity.
Qed.

Lemma maybe_analyse_board_skip (board : Board) (id : test_id) (args : Args)
    (w : world) :
  spec_classify board = Unknown ->
  maybe_analyse_board board id args w = (Ret tt, w).
Proof.
  unfold spec_classify, maybe_analyse_board.
  destruct (is_game_over board); [reflexivity|].
  destruct (get_dtz board) as [dtz|]; [|reflexivity].
  destruct ((dtz =? 0) || (Z.abs dtz >? 100)); [discriminate|].
  destruct (dtz >? 0); discriminate.
Qed.

Lemma maybe_analyse_board_probe (board : Board) (id : test_id) (args : Args)
    (w : world) (dtz : Z) :
  is_game_over board = false ->
  get_dtz board = Some dtz ->
  maybe_analyse_board board id args w
  = match search_loop board (ground_truth dtz) args (range (iters args))
            None None
            (advance w (engine w) (probe_prefix board id (ground_truth dtz)))
    with
    | (Ret Returned, w1) => (Ret tt, w1)
    | (Ret (Fallthrough le sp), w1) =>
        report_miseval board (ground_truth dtz) args le sp w1
    | (Raise e, w1) => (Raise e, w1)
    end.
Proof.
  intros Hg Hd. unfold maybe_analyse_board. rewrite Hg, Hd.
  unfold bind at 1 2 3, emit. simpl.
  unfold probe_prefix, advance. simpl.
  repeat rewrite <- app_assoc. simpl.
  unfold bind.
  destruct (search_loop _ _ _ _ _ _ _) as [[[|le sp]|e] w1]; reflexivity.
Qed.

(** A position that the tablebase knows and its verdict. *)
Lemma classify_known (board : Board) :
  spec_classify board <> Unknown ->
  is_game_over board = false
  /\ exists dtz, get_dtz board = Some dtz
                 /\ ground_truth dtz = symbol (spec_classify board).
Proof.
  unfold spec_classify, ground_truth.
  destruct (is_game_over board); [congruence|].
  destruct (get_dtz board) as [dtz|]; [|congruence].
  intros _. split; [reflexivity|]. exists dtz. split; [reflexivity|].
  rewrite orb_comm.
  destruct ((dtz =? 0) || (Z.abs dtz >? 100)); [reflexivity|].
  destruct (dtz >? 0); reflexivity.
Qed.

(** The shape of every probe. *)
Lemma probe_shape (board : Board) (id : test_id) (args : Args)
    (w w' : world) (r : res unit) :
  spec_classify board <> Unknown ->
  maybe_analyse_board board id args w = (r, w') ->
  let result := symbol (spec_classify board) in
  exists steps e' tail,
    w' = advance w e' (probe_prefix board id result ++ searches board steps ++ tail)
    /\ Forall (unsolved result args) steps
    /\ budgets_from args 0 steps
    /\ probe_tail board result args steps r tail.
Proof.
  intros Hk Hrun result.
  destruct (classify_known board Hk) as [Hg [dtz [Hd Hs]]].
  rewrite (maybe_analyse_board_probe board id args w dtz Hg Hd) in Hrun.
  rewrite Hs in Hrun. fold result in Hrun.
  destruct (search_loop _ _ _ _ _ _ _) as [rl w1] eqn:Hloop.
  apply search_loop_shape in Hloop.
  destruct Hloop as (steps & e' & tail & Hw & Hu & Hb & Ht).
  rewrite advance_advance in Hw.
  assert (Hlen : length (range (iters args)) = Z.to_nat (iters args))
    by (unfold range; now rewrite length_map, length_seq).
  inversion Ht; subst rl tail.
  - rewrite report_miseval_run in Hrun.
    destruct (miseval_type result (last_score steps None) args) as [ty|e] eqn:Hty.
    + destruct (last_score steps None) as [final|] eqn:Hlast;
        injection Hrun as <- <-; rewrite Hw, advance_advance.
      * exists steps, e', [Write MisevalFile (epd board (Some ty) (Some final));
                           Flush MisevalFile;
                           Print (Unsolved (max_nodes args) final)].
        rewrite app_nil_r, <- app_assoc.
        repeat split; auto.
        apply probe_unsolved; auto. now rewrite Hlast.
      * exists steps, e', [Write MisevalFile (epd board (Some ty) None);
                           Flush MisevalFile].
        rewrite app_nil_r, <- app_assoc.
        repeat split; auto.
        apply probe_no_eval; auto. now rewrite Hlast.
    + injection Hrun as <- <-.
      exists steps, e', []. repeat split; auto.
      now apply probe_unbound.
  - injection Hrun as <- <-.
    exists steps, e', [Analyse board nodes (Some sc); Print (Solved nodes sc)].
    repeat split; auto. now apply probe_solved.
  - injection Hrun as <- <-.
    exists steps, e', [Analyse board nodes None; Print Error].
    repeat split; auto. now apply probe_error.
  - injection Hrun as <- <-.
    exists steps, e', []. repeat split; auto. now apply probe_raise.
Qed.

(** *** From the hypotheses on the engine to the run *)

Lemma budgets_from_app (args : Args) (l1 l2 : list (Z * Z)) :
  forall k,
    budgets_from args k (l1 ++ l2)
    <-> budgets_from args k l1 /\ budgets_from args (k + length l1) l2.
Proof.
  induction l1 as [|p l1 IH]; intros k; simpl.
  - rewrite Nat.add_0_r. tauto.
  - rewrite (IH (S k)). replace (S k + length l1)%nat
      with (k + S (length l1))%nat by lia. tauto.
Qed.

Lemma answers_app (board : Board) (l1 l2 : list (Z * Z)) :
  forall e e',
    answers e board (l1 ++ l2) e'
    <-> exists e1, answers e board l1 e1 /\ answers e1 board l2 e'.
Proof.
  induction l1 as [|p l1 IH]; intros e e'; simpl.
  - split.
    + intros H. exists e. split; [reflexivity|assumption].
    + intros [e1 [-> H]]. assumption.
  - split.
    + intros [e1 [H1 H2]]. apply IH in H2. destruct H2 as [e2 [H2 H3]].
      exists e2. split; [exists e1; split; assumption|assumption].
    + intros [e2 [[e1 [H1 H2]] H3]]. exists e1. split; [assumption|].
      apply IH. exists e2. split; assumption.
Qed.

Lemma last_score_snoc (steps : list (Z * Z)) (p : Z * Z) (d : option Z) :
  last_score (steps ++ [p]) d = Some (snd p).
Proof. unfold last_score. now rewrite fold_left_app. Qed.

Lemma searches_app (board : Board) (l1 l2 : list (Z * Z)) :
  searches board (l1 ++ l2) = searches board l1 ++ searches board l2.
Proof. apply map_app. Qed.

Lemma correctly_evaluated_spec (g : GroundTruth) (sc : Z) (args : Args) :
  correctly_evaluated (symbol g) sc args = true <-> spec_solved g sc args.
Proof.
  unfold correctly_evaluated, spec_solved.
  destruct g; simpl;
    rewrite ?orb_false_r, ?andb_true_iff, ?Z.ltb_lt, ?Z.gtb_lt;
    split; intros H;
    repeat match goal with
           | H : _ \/ _ |- _ => destruct H
           | H : _ /\ _ |- _ => destruct H
           end;
    try discriminate; try lia; auto 6;
    solve [right; left; split; [reflexivity | lia]].
Qed.

Lemma unsolved_spec (g : GroundTruth) (args : Args) (steps : list (Z * Z)) :
  Forall (fun p => ~ spec_solved g (snd p) args) steps ->
  Forall (unsolved (symbol g) args) steps.
Proof.
  apply Forall_impl. intros p Hp. unfold unsolved.
  destruct (correctly_evaluated (symbol g) (snd p) args) eqn:Hc; [|reflexivity].
  now apply correctly_evaluated_spec in Hc.
Qed.

(** A probe whose first iterations are the unsolved steps [steps]
    goes on with the iterations that are left. *)
Lemma probe_after_steps (board : Board) (id : test_id) (args : Args)
    (w : world) (steps : list (Z * Z)) (e1 : Engine) (left : nat) :
  spec_classify board <> Unknown ->
  let result := symbol (spec_classify board) in
  (length steps + left)%nat = Z.to_nat (iters args) ->
  budgets_from args 0 steps ->
  answers (engine w) board steps e1 ->
  Forall (unsolved result args) steps ->
  maybe_analyse_board board id args w
  = match search_loop board result args
            (map Z.of_nat (seq (length steps) left))
            (last_score steps None) (last_score steps None)
            (advance w e1 (probe_prefix board id result ++ searches board steps))
    with
    | (Ret Returned, w1) => (Ret tt, w1)
    | (Ret (Fallthrough le sp), w1) => report_miseval board result args le sp w1
    | (Raise e, w1) => (Raise e, w1)
    end.
Proof.
  intros Hk result Hlen Hb Ha Hu.
  destruct (classify_known board Hk) as [Hg [dtz [Hd Hs]]].
  rewrite (maybe_analyse_board_probe board id args w dtz Hg Hd).
  rewrite Hs. fold result.
  unfold range. rewrite <- Hlen, seq_app, map_app. simpl.
  rewrite (search_loop_steps board result args steps 0
             (map Z.of_nat (seq (length steps) left)) None None _ e1);
    try assumption.
  now rewrite advance_advance.
Qed.

Lemma in_searches (board : Board) (steps : list (Z * Z)) (ev : event) :
  In ev (searches board steps) ->
  exists nodes sc, ev = Analyse board nodes (Some sc).
Proof.
  unfold searches. rewrite in_map_iff. intros [p [<- _]]. eauto.
Qed.

End Probe.

(** ** The loops over the positions *)

Section Loops.
Context {X : External}.

Lemma calls_app (t1 t2 : list event) : calls (t1 ++ t2) = calls t1 ++ calls t2.
Proof.
  induction t1 as [|ev t1 IH]; [reflexivity|].
  destruct ev; simpl; now rewrite IH.
Qed.

Lemma draws_app (t1 t2 : list event) : draws (t1 ++ t2) = draws t1 ++ draws t2.
Proof.
  induction t1 as [|ev t1 IH]; [reflexivity|].
  destruct ev; simpl; now rewrite IH.
Qed.

Lemma calls_searches (board : Board) (steps : list (Z * Z)) :
  calls (searches board steps) = [].
Proof. induction steps as [|p steps IH]; [reflexivity|exact IH]. Qed.

Lemma draws_searches (board : Board) (steps : list (Z * Z)) :
  draws (searches board steps) = [].
Proof. induction steps as [|p steps IH]; [reflexivity|exact IH]. Qed.

(** A probe draws no random number and calls no probe. *)
Lemma probe_frame (board : Board) (id : test_id) (args : Args)
    (w w' : world) (r : res unit) :
  maybe_analyse_board board id args w = (r, w') ->
  rng w' = rng w
  /\ exists new, trace w' = trace w ++ new /\ calls new = [] /\ draws new = [].
Proof.
  intros Hrun.
  assert (Hcase : spec_classify board = Unknown
                  \/ spec_classify board <> Unknown).
  { destruct (spec_classify board); auto; right; discriminate. }
  destruct Hcase as [Hg|Hk].
  - rewrite (maybe_analyse_board_skip board id args w Hg) in Hrun.
    injection Hrun as <- <-. split; [reflexivity|].
    exists []. now rewrite app_nil_r.
  - destruct (probe_shape board id args w w' r Hk Hrun)
      as (steps & e' & tail & Hw & _ & _ & Ht).
    split; [rewrite Hw; reflexivity|].
    exists (probe_prefix board id (symbol (spec_classify board))
            ++ searches board steps ++ tail).
    split; [rewrite Hw; reflexivity|].
    rewrite !calls_app, !draws_app, calls_searches, draws_searches.
    inversion Ht; subst; split; reflexivity.
Qed.

Lemma analyse_epd_file_cons (line : string) (rest : list string)
    (args : Args) (count : Z) (w : world) :
  analyse_epd_file (line :: rest) args count w
  = match set_epd line with
    | None => (Raise ValueError, w)
    | Some board =>
        match maybe_analyse_board board (BoardId (count + 1)) args
                (advance w (engine w) [Call (BoardId (count + 1)) board])
        with
        | (Ret _, w') => analyse_epd_file rest args (count + 1) w'
        | (Raise e, w') => (Raise e, w')
        end
    end.
Proof.
  simpl. unfold bind at 1.
  destruct (set_epd line) as [board|]; [|reflexivity].
  unfold ret at 1. unfold bind at 1. rewrite emit_advance.
  unfold bind at 1.
  destruct (maybe_analyse_board _ _ _ _) as [[[]|e] w']; reflexivity.
Qed.

Lemma analyse_mainline_cons (board : Board) (move : Move) (rest : list Move)
    (id : test_id) (args : Args) (w : world) :
  analyse_mainline board (move :: rest) id args w
  = let b := push board move in
    let w1 := {| engine := engine w; rng := snd (uniform (rng w));
                 trace := trace w ++ [Uniform (fst (uniform (rng w)))] |} in
    if SFleb (fst (uniform (rng w))) (rate args)
    then
      match maybe_analyse_board b id args
              (advance w1 (engine w1) [Call id b])
      with
      | (Ret _, w2) => analyse_mainline b rest id args w2
      | (Raise e, w2) => (Raise e, w2)
      end
    else analyse_mainline b rest id args w1.
Proof.
  simpl. unfold bind at 1, random_uniform.
  destruct (uniform (rng w)) as [u g']. simpl.
  destruct (SFleb u (rate args)).
  - unfold bind at 1. unfold bind at 1. rewrite emit_advance.
    destruct (maybe_analyse_board _ _ _ _) as [[[]|e] w']; reflexivity.
  - reflexivity.
Qed.

(** *** The EPD files: every line, and no draw *)



(** *** The PGN files: one draw for each position of a game *)




Lemma positions_length (moves : list Move) :
  forall board, length (positions board moves) = length moves.
Proof.
  induction moves as [|move rest IH]; intros board; [reflexivity|].
  simpl. now rewrite IH.
Qed.



Lemma file_candidates_length (games : list Game) :
  forall count,
    length (file_candidates games count)
    = length (concat (map mainline_moves games)).
Proof.
  induction games as [|game rest IH]; intros count; [reflexivity|].
  simpl. rewrite !length_app, length_map, positions_length. now rewrite IH.
Qed.



(** *** Every probed position of a game is behind a move *)

Lemma analyse_mainline_calls (id : test_id) (args : Args) (moves : list Move) :
  forall (board : Board) (w w' : world) (r : res unit),
    analyse_mainline board moves id args w = (r, w') ->
    exists new,
      trace w' = trace w ++ new
      /\ Forall (fun c => behind_a_move board moves (snd c)) (calls new)
      /\ (length (draws new) <= length moves)%nat.
Proof.
  induction moves as [|move rest IH]; intros board w w' r Hrun.
  - simpl in Hrun. injection Hrun as <- <-.
    exists []. rewrite app_nil_r. repeat split; constructor.
  - rewrite analyse_mainline_cons in Hrun. cbv zeta in Hrun.
    destruct (uniform (rng w)) as [u g'] eqn:Hu. cbn [fst snd] in Hrun.
    assert (Hhere : behind_a_move board (move :: rest) (push board move)).
    { exists [], move, rest. split; reflexivity. }
    assert (Hlater : forall b, behind_a_move (push board move) rest b ->
                               behind_a_move board (move :: rest) b).
    { intros b (pre & mv & post & -> & ->).
      exists (move :: pre), mv, post. split; reflexivity. }
    destruct (SFleb u (rate args)) eqn:Hsel.
    + destruct (maybe_analyse_board _ _ _ _) as [[[]|e] w2] eqn:Hprobe.
      * apply probe_frame in Hprobe.
        destruct Hprobe as (Hr1 & new1 & Ht1 & Hc1 & Hd1).
        apply IH in Hrun. destruct Hrun as (new2 & Ht2 & Hc2 & Hd2).
        simpl in Ht1.
        exists (Uniform u :: Call id (push board move) :: new1 ++ new2).
        split; [rewrite Ht2, Ht1; rewrite <- !app_assoc; reflexivity|].
        cbn [draws calls]. rewrite draws_app, calls_app, Hd1, Hc1. simpl app.
        split; [|simpl; lia].
        constructor; [exact Hhere|].
        revert Hc2. apply Forall_impl. intros c. apply Hlater.
      * injection Hrun as <- <-.
        apply probe_frame in Hprobe.
        destruct Hprobe as (Hr1 & new1 & Ht1 & Hc1 & Hd1).
        simpl in Ht1.
        exists (Uniform u :: Call id (push board move) :: new1).
        split; [rewrite Ht1; rewrite <- !app_assoc; reflexivity|].
        cbn [draws calls]. rewrite Hd1, Hc1.
        split; [|simpl; lia].
        constructor; [exact Hhere|constructor].
    + apply IH in Hrun. destruct Hrun as (new2 & Ht2 & Hc2 & Hd2).
      simpl in Ht2.
      exists (Uniform u :: new2).
      split; [rewrite Ht2; rewrite <- app_assoc; reflexivity|].
      cbn [draws calls].
      split; [|simpl; lia].
      revert Hc2. apply Forall_impl. intros c. apply Hlater.
Qed.

Lemma analyse_pgn_file_calls (args : Args) (games : list Game) :
  forall (count : Z) (w w' : world) (r : res Z),
    analyse_pgn_file games args count w = (r, w') ->
    exists new,
      trace w' = trace w ++ new
      /\ Forall (fun c => behind_a_move_of games (snd c)) (calls new)
      /\ (length (draws new)
          <= length (concat (map mainline_moves games)))%nat.
Proof.
  induction games as [|game rest IH]; intros count w w' r Hrun.
  - simpl in Hrun. injection Hrun as <- <-.
    exists []. rewrite app_nil_r. repeat split; constructor.
  - simpl in Hrun. unfold bind in Hrun.
    destruct (analyse_mainline _ _ _ _ _) as [[[]|e] w1] eqn:Hgame;
      apply analyse_mainline_calls in Hgame;
      destruct Hgame as (new1 & Ht1 & Hc1 & Hd1).
    + apply IH in Hrun. destruct Hrun as (new2 & Ht2 & Hc2 & Hd2).
      exists (new1 ++ new2).
      split; [rewrite Ht2, Ht1; now rewrite <- app_assoc|].
      rewrite calls_app, draws_app. simpl. rewrite !length_app.
      split; [|lia].
      apply Forall_app. split.
      * revert Hc1. apply Forall_impl. intros c Hc.
        exists game. split; [now left|exact Hc].
      * revert Hc2. apply Forall_impl. intros c (g & Hin & Hc).
        exists g. split; [now right|exact Hc].
    + injection Hrun as <- <-.
      exists new1. split; [exact Ht1|].
      simpl. rewrite length_app. split; [|lia].
      revert Hc1. apply Forall_impl. intros c Hc.
      exists game. split; [now left|exact Hc].
Qed.

Lemma analyse_pgn_list_calls (args : Args) (files : list (list Game)) :
  forall (count : Z) (w w' : world) (r : res Z),
    analyse_pgn_list files args count w = (r, w') ->
    exists new,
      trace w' = trace w ++ new
      /\ Forall (fun c => behind_a_move_of (concat files) (snd c)) (calls new)
      /\ (length (draws new)
          <= length (concat (map mainline_moves (concat files))))%nat.
Proof.
  induction files as [|file rest IH]; intros count w w' r Hrun.
  - simpl in Hrun. injection Hrun as <- <-.
    exists []. rewrite app_nil_r. repeat split; constructor.
  - simpl in Hrun. unfold bind in Hrun.
    destruct (analyse_pgn_file file args count w) as [[c1|e] w1] eqn:Hfile;
      apply analyse_pgn_file_calls in Hfile;
      destruct Hfile as (new1 & Ht1 & Hc1 & Hd1).
    + apply IH in Hrun. destruct Hrun as (new2 & Ht2 & Hc2 & Hd2).
      exists (new1 ++ new2).
      split; [rewrite Ht2, Ht1; now rewrite <- app_assoc|].
      rewrite calls_app, draws_app. simpl.
      rewrite map_app, concat_app, !length_app.
      split; [|lia].
      apply Forall_app. split.
      * revert Hc1. apply Forall_impl. intros c (g & Hin & Hc).
        exists g. split; [apply in_or_app; now left|exact Hc].
      * revert Hc2. apply Forall_impl. intros c (g & Hin & Hc).
        exists g. split; [apply in_or_app; now right|exact Hc].
    + injection Hrun as <- <-.
      exists new1. split; [exact Ht1|].
      simpl. rewrite map_app, concat_app, length_app. split; [|lia].
      revert Hc1. apply Forall_impl. intros c (g & Hin & Hc).
      exists g. split; [apply in_or_app; now left|exact Hc].
Qed.

End Loops.

(** ** The properties of the probe *)

Section Properties.
Context {X : External}.

(** C1. For a position with a known ground truth whose first iterations
    were answered with scores that fail the test of a solved position,
    the probe declares the position solved at the next node count of
    the schedule exactly when the score [sc] found there passes the
    test: [Draw] and [|sc| < draw], [Win] and [sc > win], or [Loss] and
    [sc < -win]. It then returns at once: the trace of the call ends
    with that search and its report, and no later iteration is run. *)
Theorem C1_solved_exactly_at_first_success :
  forall (board : Board) (id : test_id) (args : Args)
         (w : world) (pre : list (Z * Z)) (nodes sc : Z) (e' : Engine),
    spec_classify board <> Unknown ->
    (length pre < Z.to_nat (iters args))%nat ->
    budgets_from args 0 (pre ++ [(nodes, sc)]) ->
    answers (engine w) board (pre ++ [(nodes, sc)]) e' ->
    Forall (fun p => ~ spec_solved (spec_classify board) (snd p) args) pre ->
    spec_solved (spec_classify board) sc args
    <-> maybe_analyse_board board id args w
        = (Ret tt,
           advance w e'
             (probe_prefix board id (symbol (spec_classify board))
              ++ searches board (pre ++ [(nodes, sc)])
              ++ [Print (Solved nodes sc)])).
Proof.
  intros board id args w pre nodes sc e' Hk Hlen Hb Ha Hu.
  set (g := spec_classify board) in *.
  split.
  - intros Hs. apply correctly_evaluated_spec in Hs.
    apply budgets_from_app in Hb. destruct Hb as [Hb [Hn _]].
    apply answers_app in Ha. destruct Ha as [e1 [Ha [e2 [Hlast He]]]].
    simpl in He, Hn, Hlast. subst e2.
    rewrite (probe_after_steps board id args w pre e1
               (Z.to_nat (iters args) - length pre) Hk);
      [|lia|assumption|assumption|now apply unsolved_spec].
    fold g.
    destruct (Z.to_nat (iters args) - length pre)%nat as [|left] eqn:Hleft; [lia|].
    cbn [seq map]. rewrite search_loop_cons. simpl.
    rewrite Hn. simpl. rewrite Hlast, Hs.
    rewrite advance_advance, searches_app, <- !app_assoc. reflexivity.
  - intros Hrun.
    destruct (probe_shape board id args w _ _ Hk Hrun)
      as (steps & e2 & tail & Hw & _ & _ & Ht).
    fold g in Hw, Ht.
    apply (f_equal trace) in Hw. unfold advance in Hw. cbn [trace] in Hw.
    apply app_inv_head in Hw. apply app_inv_head in Hw.
    assert (Hin : In (Print (Solved nodes sc)) (searches board steps ++ tail)).
    { rewrite <- Hw. apply in_or_app. right. now left. }
    apply in_app_or in Hin. destruct Hin as [Hin|Hin].
    + apply in_searches in Hin. destruct Hin as (n' & s' & Hin). discriminate.
    + apply correctly_evaluated_spec.
      inversion Ht; subst; simpl in Hin;
        repeat match goal with
               | H : _ \/ _ |- _ => destruct H
               | H : False |- _ => destruct H
               end; try discriminate.
      match goal with H : Print _ = Print _ |- _ => injection H as <- <- end.
      assumption.
Qed.

(** The filter of lines 14-24, by the code's own terminal test: a
    position for which [board.is_game_over()] holds or for which the
    tablebase has no DTZ is skipped, and any other position is probed
    with the verdict of its DTZ. *)
Lemma classification_by_is_game_over :
  forall (board : Board) (id : test_id) (args : Args) (w : world),
    (is_game_over board = true \/ get_dtz board = None ->
     spec_classify board = Unknown
     /\ maybe_analyse_board board id args w = (Ret tt, w))
    /\ (forall dtz : Z,
           is_game_over board = false ->
           get_dtz board = Some dtz ->
           (dtz = 0 \/ Z.abs dtz > 100 -> ground_truth dtz = symbol Draw)
           /\ (~ (dtz = 0 \/ Z.abs dtz > 100) -> dtz > 0 ->
               ground_truth dtz = symbol Win)
           /\ (~ (dtz = 0 \/ Z.abs dtz > 100) -> dtz < 0 ->
               ground_truth dtz = symbol Loss)
           /\ ground_truth dtz = symbol (spec_classify board)
           /\ exists rest,
               trace (snd (maybe_analyse_board board id args w))
               = trace w ++ probe_prefix board id (ground_truth dtz) ++ rest).
Proof.
  intros board id args w. split.
  - intros H.
    assert (Hu : spec_classify board = Unknown).
    { unfold spec_classify. destruct H as [-> | H]; [reflexivity|].
      rewrite H. now destruct (is_game_over board). }
    split; [assumption | now apply maybe_analyse_board_skip].
  - intros dtz Hg Hd.
    assert (Hcases :
              (dtz = 0 \/ Z.abs dtz > 100 -> ground_truth dtz = symbol Draw)
              /\ (~ (dtz = 0 \/ Z.abs dtz > 100) -> dtz > 0 ->
                  ground_truth dtz = symbol Win)
              /\ (~ (dtz = 0 \/ Z.abs dtz > 100) -> dtz < 0 ->
                  ground_truth dtz = symbol Loss)).
    { unfold ground_truth.
      destruct (Z.gtb_spec (Z.abs dtz) 100); destruct (Z.eqb_spec dtz 0);
        destruct (Z.gtb_spec dtz 0); simpl;
        repeat split; intros; try reflexivity; exfalso; lia. }
    destruct Hcases as (H1 & H2 & H3).
    assert (Hk : spec_classify board <> Unknown).
    { unfold spec_classify. rewrite Hg, Hd.
      destruct ((dtz =? 0) || (Z.abs dtz >? 100)); [discriminate|].
      destruct (dtz >? 0); discriminate. }
    destruct (classify_known board Hk) as [_ [dtz' [Hd' Hs]]].
    rewrite Hd in Hd'. injection Hd' as <-.
    repeat split; try assumption.
    destruct (maybe_analyse_board board id args w) as [r w'] eqn:Hrun.
    destruct (probe_shape board id args w w' r Hk Hrun)
      as (steps & e' & tail & Hw & _).
    exists (searches board steps ++ tail).
    simpl. rewrite Hw, Hs. reflexivity.
Qed.

Lemma miseval_type_spec (g : GroundTruth) (final : Z) (args : Args)
    (ty : string) :
  miseval_type (symbol g) (Some final) args = Ret ty ->
  g <> Unknown ->
  exists label, spec_label g final args = Some label /\ ty = label_text label.
Proof.
  unfold miseval_type, spec_label. destruct g; simpl; try congruence.
  - intros [= <-] _. eauto.
  - intros [= <-] _. eauto.
  - destruct (final >? draw args); intros [= <-] _; eauto.
Qed.

(** C4. The label of a failure record is a function of the ground truth
    and of the final score: a drawn position gets [OptimisticDraw] when
    the score is above [draw] and [PessimisticDraw] otherwise, a won one
    [BlindToWin], a lost one [BlindToLoss]; so do the four examples. And
    whenever a probe of at least one iteration writes a failure record,
    its evaluation field is a score and its label is the one of the
    position's ground truth and of that score. *)
Theorem C4_miseval_label :
  forall (board : Board) (id : test_id) (args : Args) (w w' : world)
         (r : res unit),
    0 < iters args ->
    maybe_analyse_board board id args w = (r, w') ->
    (forall final : Z,
        (final > draw args ->
         miseval_type (symbol Draw) (Some final) args
         = Ret (label_text OptimisticDraw))
        /\ (final <= draw args ->
            miseval_type (symbol Draw) (Some final) args
            = Ret (label_text PessimisticDraw))
        /\ miseval_type (symbol Win) (Some final) args
           = Ret (label_text BlindToWin)
        /\ miseval_type (symbol Loss) (Some final) args
           = Ret (label_text BlindToLoss))
    /\ (draw args = 100 ->
        miseval_type (symbol Draw) (Some 250) args
        = Ret (label_text OptimisticDraw)
        /\ miseval_type (symbol Draw) (Some (-250)) args
           = Ret (label_text PessimisticDraw)
        /\ miseval_type (symbol Win) (Some (-10)) args
           = Ret (label_text BlindToWin)
        /\ miseval_type (symbol Loss) (Some 10) args
           = Ret (label_text BlindToLoss))
    /\ exists new,
        trace w' = trace w ++ new
        /\ forall line,
            In (Write MisevalFile line) new ->
            exists final label,
              ce line = Some final
              /\ spec_label (spec_classify board) final args = Some label
              /\ c0 line = Some (label_text label).
Proof.
  intros board id args w w' r Hit Hrun.
  split; [|split].
  - intros final. unfold miseval_type. simpl.
    destruct (Z.gtb_spec final (draw args)); repeat split; intros;
      try reflexivity; exfalso; lia.
  - intros Hd. unfold miseval_type. simpl. rewrite Hd. repeat split.
  - assert (Hcase : spec_classify board = Unknown
                    \/ spec_classify board <> Unknown).
    { destruct (spec_classify board); auto; right; discriminate. }
    destruct Hcase as [Hg|Hk].
    { rewrite (maybe_analyse_board_skip board id args w Hg) in Hrun.
      injection Hrun as <- <-. exists []. split.
      - now rewrite app_nil_r.
      - intros line []. }
    destruct (probe_shape board id args w w' r Hk Hrun)
      as (steps & e' & tail & Hw & _ & _ & Ht).
    exists (probe_prefix board id (symbol (spec_classify board))
            ++ searches board steps ++ tail).
    split; [rewrite Hw; reflexivity|].
    intros line Hin.
    apply in_app_or in Hin. destruct Hin as [Hin|Hin].
    { simpl in Hin. destruct Hin as [Hin|[Hin|[Hin|[]]]]; discriminate. }
    apply in_app_or in Hin. destruct Hin as [Hin|Hin].
    { apply in_searches in Hin. destruct Hin as (? & ? & ?). discriminate. }
    assert (Hne : length steps = Z.to_nat (iters args) ->
                  exists pre p, steps = pre ++ [p]).
    { intros Hlen. destruct (exists_last (l := steps)) as [pre [p Hp]].
      - intros ->. simpl in Hlen. lia.
      - eauto. }
    inversion Ht as [ | | | | ty Hlen Hty Hlast | ty final Hlen Hty Hlast];
      subst r tail; simpl in Hin;
      repeat match goal with
             | H : _ \/ _ |- _ => destruct H
             | H : False |- _ => destruct H
             end; try discriminate.
    + destruct (Hne Hlen) as (pre & p & ->).
      rewrite last_score_snoc in Hlast. discriminate.
    + destruct (Hne Hlen) as (pre & p & ->).
      rewrite last_score_snoc in Hlast, Hty.
      injection Hlast as Hfinal. rewrite Hfinal in Hty.
      apply miseval_type_spec in Hty; [|assumption].
      destruct Hty as (label & Hl & ->).
      match goal with
      | H : Write _ _ = Write _ _ |- _ => injection H as <-
      end.
      exists final, label. repeat split; assumption.
Qed.

Lemma miseval_type_total (g : GroundTruth) (final : Z) (args : Args) :
  g <> Unknown ->
  exists label,
    spec_label g final args = Some label
    /\ miseval_type (symbol g) (Some final) args = Ret (label_text label).
Proof.
  unfold miseval_type, spec_label. destruct g; simpl; try congruence; eauto.
  destruct (final >? draw args); eauto.
Qed.

(** C5. When the engine answers every iteration of the schedule with a
    score and none of them passes the test of a solved position, the
    probe runs all [iters] iterations, in the order of the schedule, and
    then writes one failure record, whose evaluation field is the score
    [final] of the last iteration, flushes it and reports the position
    as unsolved with that score. *)
Theorem C5_exhausted_probe :
  forall (board : Board) (id : test_id) (args : Args) (w : world)
         (pre : list (Z * Z)) (nodes final : Z) (e' : Engine),
    spec_classify board <> Unknown ->
    length (pre ++ [(nodes, final)]) = Z.to_nat (iters args) ->
    budgets_from args 0 (pre ++ [(nodes, final)]) ->
    answers (engine w) board (pre ++ [(nodes, final)]) e' ->
    Forall (fun p => ~ spec_solved (spec_classify board) (snd p) args)
           (pre ++ [(nodes, final)]) ->
    exists label,
      spec_label (spec_classify board) final args = Some label
      /\ maybe_analyse_board board id args w
         = (Ret tt,
            advance w e'
              (probe_prefix board id (symbol (spec_classify board))
               ++ searches board (pre ++ [(nodes, final)])
               ++ [Write MisevalFile
                     (epd board (Some (label_text label)) (Some final));
                   Flush MisevalFile;
                   Print (Unsolved (max_nodes args) final)])).
Proof.
  intros board id args w pre nodes final e' Hk Hlen Hb Ha Hu.
  destruct (miseval_type_total (spec_classify board) final args Hk)
    as (label & Hl & Hty).
  exists label. split; [assumption|].
  rewrite (probe_after_steps board id args w (pre ++ [(nodes, final)]) e' 0 Hk);
    [|lia|assumption|assumption|now apply unsolved_spec].
  simpl. rewrite report_miseval_run, last_score_snoc. simpl.
  rewrite Hty, advance_advance. rewrite <- ?app_assoc. reflexivity.
Qed.

(** C7, as the code has it. With at least two iterations and a minimal
    node count other than zero, no iteration of the schedule divides by
    zero; with one iteration every node count does, in the exponent
    [n / (iters - 1)]: the code has no special case for it, and the probe
    of a position that the tablebase knows ends with
    [ZeroDivisionError] at its first iteration. *)
Theorem C7_division_by_zero :
  forall (args : Args) (n : Z),
    1 <= iters args ->
    min_nodes args <> 0 ->
    0 <= n ->
    (cur_nodes args n = Raise ZeroDivisionError <-> iters args = 1)
    /\ (iters args = 1 ->
        forall (board : Board) (id : test_id) (w : world),
          spec_classify board <> Unknown ->
          maybe_analyse_board board id args w
          = (Raise ZeroDivisionError,
             advance w (engine w)
               (probe_prefix board id (symbol (spec_classify board))))).
Proof.
  intros args n Hit Hmin Hn. split.
  - split.
    + intros Hz. destruct (Z.eq_dec (iters args) 1) as [H1|H1]; [assumption|].
      exfalso. apply Hmin.
      apply (cur_nodes_zero_division args n Hn); [lia | assumption].
    + apply cur_nodes_one_iteration.
  - intros H1 board id w Hk.
    rewrite (probe_after_steps board id args w [] (engine w) 1 Hk);
      [|rewrite H1; reflexivity|exact I|reflexivity|constructor].
    cbn [length seq map]. rewrite search_loop_cons.
    rewrite (cur_nodes_one_iteration args _ H1).
    now rewrite app_nil_r.
Qed.

(** C9. A position that passes the filter of the ground truth has its
    sample record written and flushed first, before any search, and no
    second sample record follows, however the probe ends; and when a
    search of the probe comes back without a score, no failure record
    is written. *)
Theorem C9_one_sample_record_first :
  forall (board : Board) (id : test_id) (args : Args) (w w' : world)
         (r : res unit),
    spec_classify board <> Unknown ->
    maybe_analyse_board board id args w = (r, w') ->
    exists rest,
      trace w'
      = trace w
        ++ [Write SampleFile (epd board None None); Flush SampleFile]
        ++ rest
      /\ (forall line, ~ In (Write SampleFile line) rest)
      /\ ((exists nodes, In (Analyse board nodes None) rest) ->
          forall line, ~ In (Write MisevalFile line) rest).
Proof.
  intros board id args w w' r Hk Hrun.
  destruct (probe_shape board id args w w' r Hk Hrun)
    as (steps & e' & tail & Hw & _ & _ & Ht).
  exists (Print (Analyzing id board (symbol (spec_classify board)))
          :: searches board steps ++ tail).
  split; [rewrite Hw; reflexivity|].
  split.
  - intros line [Hin|Hin]; [discriminate|].
    apply in_app_or in Hin. destruct Hin as [Hin|Hin].
    + apply in_searches in Hin. destruct Hin as (? & ? & ?). discriminate.
    + inversion Ht; subst; simpl in Hin;
        repeat match goal with
               | H : _ \/ _ |- _ => destruct H
               | H : False |- _ => destruct H
               end; discriminate.
  - intros [nodes [Hin|Hin]]; [discriminate|].
    apply in_app_or in Hin. destruct Hin as [Hin|Hin].
    { apply in_searches in Hin. destruct Hin as (? & ? & ?). discriminate. }
    intros line [Hl|Hl]; [discriminate|].
    apply in_app_or in Hl. destruct Hl as [Hl|Hl].
    { apply in_searches in Hl. destruct Hl as (? & ? & ?). discriminate. }
    inversion Ht; subst; simpl in Hin, Hl;
      repeat match goal with
             | H : _ \/ _ |- _ => destruct H
             | H : False |- _ => destruct H
             end; discriminate.
Qed.

(** C6. When the engine, after iterations answered with scores that
    fail the test of a solved position, comes back without a score, the
    probe stops there: the call returns normally after reporting the
    error, with no later search and no failure record; and the loop
    that called it, over the lines of an EPD file or over the moves of a
    game, goes on with the next position. *)
Theorem C6_missing_score_aborts_probe :
  forall (board : Board) (id : test_id) (args : Args) (w : world)
         (pre : list (Z * Z)) (nodes : Z) (e1 e' : Engine),
    spec_classify board <> Unknown ->
    (length pre < Z.to_nat (iters args))%nat ->
    budgets_from args 0 pre ->
    cur_nodes args (Z.of_nat (length pre)) = Ret nodes ->
    answers (engine w) board pre e1 ->
    Forall (fun p => ~ spec_solved (spec_classify board) (snd p) args) pre ->
    analyse e1 board nodes = (None, e') ->
    let w' :=
      advance w e'
        (probe_prefix board id (symbol (spec_classify board))
         ++ searches board pre
         ++ [Analyse board nodes None; Print Error]) in
    maybe_analyse_board board id args w = (Ret tt, w')
    /\ (forall (line : string) (rest : list string) (count : Z) (w0 : world),
           set_epd line = Some board ->
           id = BoardId (count + 1) ->
           w = advance w0 (engine w0) [Call id board] ->
           analyse_epd_file (line :: rest) args count w0
           = analyse_epd_file rest args (count + 1) w')
    /\ (forall (from : Board) (move : Move) (rest : list Move) (w0 : world),
           push from move = board ->
           SFleb (fst (uniform (rng w0))) (rate args) = true ->
           w = {| engine := engine w0; rng := snd (uniform (rng w0));
                  trace := trace w0 ++ [Uniform (fst (uniform (rng w0)));
                                        Call id board] |} ->
           analyse_mainline from (move :: rest) id args w0
           = analyse_mainline board rest id args w').
Proof.
  intros board id args w pre nodes e1 e' Hk Hlen Hb Hn Ha Hu Hnone w'.
  assert (Hrun : maybe_analyse_board board id args w = (Ret tt, w')).
  { rewrite (probe_after_steps board id args w pre e1
               (Z.to_nat (iters args) - length pre) Hk);
      [|lia|assumption|assumption|now apply unsolved_spec].
    destruct (Z.to_nat (iters args) - length pre)%nat as [|left] eqn:Hleft;
      [lia|].
    cbn [seq map]. rewrite search_loop_cons, Hn. simpl. rewrite Hnone.
    rewrite advance_advance. unfold w'. rewrite <- ?app_assoc. reflexivity. }
  split; [exact Hrun|]. split.
  - intros line rest count w0 Hline Hid Hw.
    rewrite analyse_epd_file_cons, Hline, <- Hid, <- Hw, Hrun. reflexivity.
  - intros from move rest w0 Hpush Hsel Hw.
    rewrite analyse_mainline_cons. cbv zeta. rewrite Hsel, Hpush.
    unfold advance. cbn [engine rng trace]. rewrite <- app_assoc.
    cbn [app]. rewrite <- Hw, Hrun. reflexivity.
Qed.


(** C10. In the games of the PGN files, every position that is handed
    to the probe has been reached by pushing at least one move of the
    mainline of its game on the game's initial position, and there are
    no more draws than moves: the initial position of a game is never
    a candidate. *)
Theorem C10_initial_position_never_sampled :
  forall (files : list (list Game)) (args : Args) (count : Z)
         (w w' : world) (r : res Z),
    analyse_pgn_list files args count w = (r, w') ->
    exists new,
      trace w' = trace w ++ new
      /\ Forall (fun c =>
                   exists game pre move post,
                     In game (concat files)
                     /\ mainline_moves game = pre ++ move :: post
                     /\ snd c = fold_left push (pre ++ [move])
                                          (game_board game))
                (calls new)
      /\ (length (draws new)
          <= length (concat (map mainline_moves (concat files))))%nat.
Proof.
  intros files args count w w' r Hrun.
  apply analyse_pgn_list_calls in Hrun.
  destruct Hrun as (new & Ht & Hc & Hd).
  exists new. repeat split; try assumption.
  revert Hc. apply Forall_impl.
  intros c (game & Hin & pre & move & post & Hm & Hb).
  exists game, pre, move, post. repeat split; assumption.
Qed.

End Properties.

(** ** The positions that the probe skips *)

Section FinishedGames.
Context {X : External} {R : Rules X}.

(** C3, as the code has it. A position is skipped, with the world left
    as it was (no record, no search), when [board.is_game_over()] holds
    for it, that is when it is a checkmate or a stalemate and also when
    it has insufficient material or falls under the seventy-five-move
    rule or fivefold repetition, or when the tablebase has no DTZ for
    it. Any other position is probed with the verdict of its DTZ: [Draw]
    if [dtz = 0] or [|dtz| > 100], else [Win] if [dtz > 0], else [Loss]
    if [dtz < 0]. The classification that takes only checkmate and
    stalemate for terminal is the one of the code on the positions that
    none of the three other reasons ends. *)
Theorem C3_finished_games_are_skipped :
  forall (board : Board) (id : test_id) (args : Args) (w : world),
    (checkmate (termination board) = true
     \/ stalemate (termination board) = true
     \/ insufficient_material (termination board) = true
     \/ seventyfive_moves (termination board) = true
     \/ fivefold_repetition (termination board) = true
     \/ get_dtz board = None ->
     spec_classify board = Unknown
     /\ maybe_analyse_board board id args w = (Ret tt, w))
    /\ (forall dtz : Z,
           game_over (termination board) = false ->
           get_dtz board = Some dtz ->
           (dtz = 0 \/ Z.abs dtz > 100 -> ground_truth dtz = symbol Draw)
           /\ (~ (dtz = 0 \/ Z.abs dtz > 100) -> dtz > 0 ->
               ground_truth dtz = symbol Win)
           /\ (~ (dtz = 0 \/ Z.abs dtz > 100) -> dtz < 0 ->
               ground_truth dtz = symbol Loss)
           /\ ground_truth dtz = symbol (spec_classify board)
           /\ exists rest,
               trace (snd (maybe_analyse_board board id args w))
               = trace w ++ probe_prefix board id (ground_truth dtz) ++ rest)
    /\ (insufficient_material (termination board) = false ->
        seventyfive_moves (termination board) = false ->
        fivefold_repetition (termination board) = false ->
        claimed_classify board = spec_classify board).
Proof.
  intros board id args w.
  destruct (classification_by_is_game_over board id args w) as [Hskip Hprobe].
  split; [|split].
  - intros H. apply Hskip.
    rewrite is_game_over_rules. unfold game_over.
    destruct H as [H|[H|[H|[H|[H|H]]]]]; try (right; exact H);
      left; rewrite H; rewrite ?orb_true_r; reflexivity.
  - intros dtz Hover Hd. apply Hprobe; [|exact Hd].
    now rewrite is_game_over_rules.
  - intros Hi Hs Hf. unfold claimed_classify, spec_classify.
    rewrite is_game_over_rules. unfold game_over. rewrite Hi, Hs, Hf.
    destruct (checkmate (termination board)),
      (stalemate (termination board)); reflexivity.
Qed.

End FinishedGames.

(** ** What a trace keeps *)

Section Traces.
Context {X : External}.

Lemma written_app (f : stream) (t1 t2 : list event) :
  written f (t1 ++ t2) = written f t1 ++ written f t2.
Proof.
  induction t1 as [|ev t1 IH]; [reflexivity|].
  destruct ev; simpl; try exact IH.
  destruct (stream_eqb f f0); simpl; now rewrite IH.
Qed.

Lemma searched_app (t1 t2 : list event) :
  searched (t1 ++ t2) = searched t1 ++ searched t2.
Proof.
  induction t1 as [|ev t1 IH]; [reflexivity|].
  destruct ev; simpl; now rewrite IH.
Qed.

Lemma printed_app (t1 t2 : list event) :
  printed (t1 ++ t2) = printed t1 ++ printed t2.
Proof.
  induction t1 as [|ev t1 IH]; [reflexivity|].
  destruct ev; simpl; now rewrite IH.
Qed.

Lemma flush_scan_app (t1 t2 : list event) :
  forall pending,
    flush_scan pending t1 = true ->
    flush_scan pending (t1 ++ t2) = flush_scan None t2.
Proof.
  induction t1 as [|ev t1 IH]; intros pending H.
  - destruct pending; [discriminate|reflexivity].
  - destruct pending as [f|]; destruct ev; simpl in *; try discriminate;
      try (now apply IH).
    apply andb_true_iff in H. destruct H as [-> H]. simpl. now apply IH.
Qed.

Lemma flushed_at_once_app (t1 t2 : list event) :
  flushed_at_once t1 -> flushed_at_once t2 -> flushed_at_once (t1 ++ t2).
Proof.
  unfold flushed_at_once. intros H1 H2. now rewrite flush_scan_app.
Qed.

Lemma written_searches (f : stream) (board : Board) (steps : list (Z * Z)) :
  written f (searches board steps) = [].
Proof. induction steps as [|p steps IH]; [reflexivity|exact IH]. Qed.

Lemma printed_searches (board : Board) (steps : list (Z * Z)) :
  printed (searches board steps) = [].
Proof. induction steps as [|p steps IH]; [reflexivity|exact IH]. Qed.

Lemma flushed_searches (board : Board) (steps : list (Z * Z)) :
  flushed_at_once (searches board steps).
Proof. induction steps as [|p steps IH]; [reflexivity|exact IH]. Qed.

Lemma searched_searches (board : Board) (steps : list (Z * Z)) :
  searched (searches board steps) = map (fun p => (board, fst p)) steps.
Proof.
  induction steps as [|p steps IH]; [reflexivity|]. simpl. now rewrite IH.
Qed.

Lemma new_events_unique (w : world) (t1 t2 : list event) (tr : list event) :
  tr = trace w ++ t1 -> tr = trace w ++ t2 -> t1 = t2.
Proof. intros -> H. now apply app_inv_head in H. Qed.

(** The searches of the loop: the node counts of the iterations, one
    after the other, all on the same position. *)
Lemma search_loop_searched (board : Board) (result : string) (args : Args)
    (m : nat) :
  forall (k : nat) (le sp : option Z) (w w' : world) (r : res loop_exit),
    search_loop board result args (map Z.of_nat (seq k m)) le sp w = (r, w') ->
    exists new nodes,
      trace w' = trace w ++ new
      /\ searched new = map (fun n => (board, n)) nodes
      /\ map Ret nodes = map (cur_nodes args) (map Z.of_nat (seq k (length nodes)))
      /\ (length nodes <= m)%nat
      /\ written SampleFile new = []
      /\ written MisevalFile new = []
      /\ flushed_at_once new.
Proof.
  induction m as [|m IH]; intros k le sp w w' r Hrun.
  - simpl in Hrun. injection Hrun as <- <-.
    exists [], []. rewrite app_nil_r. repeat split; auto.
  - cbn [seq map] in Hrun. rewrite search_loop_cons in Hrun.
    destruct (cur_nodes args (Z.of_nat k)) as [nodes|e] eqn:Hn.
    + destruct (analyse (engine w) board nodes) as [[sc|] e1] eqn:Ha.
      * destruct (correctly_evaluated result sc args) eqn:Hc.
        -- injection Hrun as <- <-.
           exists [Analyse board nodes (Some sc); Print (Solved nodes sc)], [nodes].
           simpl. rewrite Hn. repeat split; auto. lia.
        -- apply IH in Hrun.
           destruct Hrun as (new & ns & Ht & Hs & Hb & Hl & Hws & Hwm & Hf).
           exists (Analyse board nodes (Some sc) :: new), (nodes :: ns).
           simpl in Ht. rewrite Ht, <- app_assoc. simpl.
           rewrite Hs, Hn, Hb. repeat split; auto. lia.
      * injection Hrun as <- <-.
        exists [Analyse board nodes None; Print Error], [nodes].
        simpl. rewrite Hn. repeat split; auto. lia.
    + injection Hrun as <- <-.
      exists [], []. rewrite app_nil_r. repeat split; auto. simpl. lia.
Qed.

End Traces.

(** ** More on the probe of one position *)

Section ProbeFacts.
Context {X : External}.

Lemma range_of_nat (n : nat) : range (Z.of_nat n) = map Z.of_nat (seq 0 n).
Proof. unfold range. now rewrite Nat2Z.id. Qed.

(** What every probe leaves in the trace. *)
Lemma probe_summary (board : Board) (id : test_id) (args : Args)
    (w w' : world) (r : res unit) :
  maybe_analyse_board board id args w = (r, w') ->
  exists new nodes,
    trace w' = trace w ++ new
    /\ searched new = map (fun n => (board, n)) nodes
    /\ map Ret nodes = map (cur_nodes args) (range (Z.of_nat (length nodes)))
    /\ (length nodes <= Z.to_nat (iters args))%nat
    /\ flushed_at_once new
    /\ (spec_classify board = Unknown -> new = [])
    /\ (spec_classify board <> Unknown ->
        written SampleFile new = [epd board None None])
    /\ (written MisevalFile new = []
        \/ exists ty ce, written MisevalFile new = [epd board (Some ty) ce]).
Proof.
  intros Hrun.
  assert (Hcase : spec_classify board = Unknown
                  \/ spec_classify board <> Unknown).
  { destruct (spec_classify board); auto; right; discriminate. }
  destruct Hcase as [Hg|Hk].
  - rewrite (maybe_analyse_board_skip board id args w Hg) in Hrun.
    injection Hrun as <- <-. exists [], [].
    rewrite app_nil_r. repeat split; auto; try (simpl; lia).
    intros Hk. now destruct Hk.
  - destruct (classify_known board Hk) as [Hgo [dtz [Hd Hs]]].
    rewrite (maybe_analyse_board_probe board id args w dtz Hgo Hd) in Hrun.
    destruct (search_loop _ _ _ _ _ _ _) as [rl w1] eqn:Hloop.
    unfold range in Hloop. apply search_loop_searched in Hloop.
    destruct Hloop as (new & nodes & Ht & Hse & Hb & Hl & Hws & Hwm & Hf).
    unfold advance in Ht. cbn [trace] in Ht.
    assert (Hpre : forall tail,
               flushed_at_once tail ->
               flushed_at_once
                 (probe_prefix board id (ground_truth dtz) ++ new ++ tail)).
    { intros tail Htail. apply flushed_at_once_app; [reflexivity|].
      now apply flushed_at_once_app. }
    assert (Hpre0 : flushed_at_once
                      (probe_prefix board id (ground_truth dtz) ++ new)).
    { rewrite <- (app_nil_r new). now apply Hpre. }
    destruct rl as [[|le sp]|e].
    + injection Hrun as <- <-.
      exists (probe_prefix board id (ground_truth dtz) ++ new), nodes.
      rewrite Ht, <- app_assoc, range_of_nat.
      rewrite searched_app, !written_app, Hse, Hws, Hwm.
      repeat split; auto; intros Hg; contradiction.
    + rewrite report_miseval_run in Hrun.
      destruct (miseval_type (ground_truth dtz) sp args) as [ty|e] eqn:Hty.
      * destruct le as [final|]; injection Hrun as <- <-.
        -- exists (probe_prefix board id (ground_truth dtz) ++ new
                   ++ [Write MisevalFile (epd board (Some ty) (Some final));
                       Flush MisevalFile;
                       Print (Unsolved (max_nodes args) final)]), nodes.
           unfold advance. cbn [trace]. rewrite Ht, <- !app_assoc, range_of_nat.
           rewrite !searched_app, !written_app, Hse, Hws, Hwm, app_nil_r.
           repeat split; auto;
             try (intros Hg; contradiction);
             try (now apply Hpre).
           right. exists ty, (Some final). reflexivity.
        -- exists (probe_prefix board id (ground_truth dtz) ++ new
                   ++ [Write MisevalFile (epd board (Some ty) None);
                       Flush MisevalFile]), nodes.
           unfold advance. cbn [trace]. rewrite Ht, <- !app_assoc, range_of_nat.
           rewrite !searched_app, !written_app, Hse, Hws, Hwm, app_nil_r.
           repeat split; auto;
             try (intros Hg; contradiction);
             try (now apply Hpre).
           right. exists ty, None. reflexivity.
      * injection Hrun as <- <-.
        exists (probe_prefix board id (ground_truth dtz) ++ new), nodes.
        rewrite Ht, <- app_assoc, range_of_nat.
        rewrite searched_app, !written_app, Hse, Hws, Hwm.
        repeat split; auto; intros Hg; contradiction.
    + injection Hrun as <- <-.
      exists (probe_prefix board id (ground_truth dtz) ++ new), nodes.
      rewrite Ht, <- app_assoc, range_of_nat.
      rewrite searched_app, !written_app, Hse, Hws, Hwm.
      repeat split; auto; intros Hg; contradiction.
Qed.

(** X1. Whatever the engine answers and however the probe ends, the
    searches of a call of [maybe_analyse_board] are all on the position
    of the call, there are at most [iters] of them, and the node count of
    the search number [k] (from 0) is the one that lines 43-45 compute
    for the iteration [k]: no iteration is skipped or repeated, and the
    engine is never searched with another node count. *)
Theorem X1_searches_follow_schedule :
  forall (board : Board) (id : test_id) (args : Args) (w w' : world)
         (r : res unit),
    maybe_analyse_board board id args w = (r, w') ->
    exists new nodes,
      trace w' = trace w ++ new
      /\ searched new = map (fun n => (board, n)) nodes
      /\ map Ret nodes = map (cur_nodes args) (range (Z.of_nat (length nodes)))
      /\ (length nodes <= Z.to_nat (iters args))%nat.
Proof.
  intros board id args w w' r Hrun.
  destruct (probe_summary board id args w w' r Hrun)
    as (new & nodes & Ht & Hs & Hb & Hl & _).
  exists new, nodes. repeat split; assumption.
Qed.

(** X2. A probe of a position that the tablebase knows, when it returns
    normally, has printed two lines: the announcement of the analysis and
    then exactly one report, [Solved], [Error] or [Unsolved]; and it has
    written one failure record if the report is [Unsolved] and none
    otherwise. *)
Theorem X2_one_report_per_probe :
  forall (board : Board) (id : test_id) (args : Args) (w w' : world),
    spec_classify board <> Unknown ->
    maybe_analyse_board board id args w = (Ret tt, w') ->
    exists new msg,
      trace w' = trace w ++ new
      /\ printed new
         = [Analyzing id board (symbol (spec_classify board)); msg]
      /\ is_report msg = true
      /\ length (written MisevalFile new) = (if is_unsolved msg then 1 else 0)%nat.
Proof.
  intros board id args w w' Hk Hrun.
  destruct (probe_shape board id args w w' (Ret tt) Hk Hrun)
    as (steps & e' & tail & Hw & _ & _ & Ht).
  exists (probe_prefix board id (symbol (spec_classify board))
          ++ searches board steps ++ tail).
  inversion Ht; subst tail.
  - exists (Solved nodes sc). rewrite Hw.
    rewrite !printed_app, !written_app, printed_searches, written_searches.
    repeat split.
  - exists Error. rewrite Hw.
    rewrite !printed_app, !written_app, printed_searches, written_searches.
    repeat split.
  - exists (Unsolved (max_nodes args) final). rewrite Hw.
    rewrite !printed_app, !written_app, printed_searches, written_searches.
    repeat split.
Qed.

(** X3. With an iteration count of zero or less the loop has no
    iteration and the engine is not searched, but the code after the loop
    still runs: for a drawn position the call ends with
    [UnboundLocalError] ([score_cp] was never bound) after the sample
    record; for a won or lost position it writes and flushes a failure
    record without an evaluation and then ends with [TypeError]
    ([last_eval] is [None]). *)
Theorem X3_probe_without_iterations :
  forall (board : Board) (id : test_id) (args : Args) (w : world),
    iters args <= 0 ->
    spec_classify board <> Unknown ->
    let result := symbol (spec_classify board) in
    (spec_classify board = Draw ->
     maybe_analyse_board board id args w
     = (Raise UnboundLocalError,
        advance w (engine w) (probe_prefix board id result)))
    /\ (spec_classify board <> Draw ->
        exists label,
          spec_label (spec_classify board) 0 args = Some label
          /\ maybe_analyse_board board id args w
             = (Raise TypeError,
                advance w (engine w)
                  (probe_prefix board id result
                   ++ [Write MisevalFile
                         (epd board (Some (label_text label)) None);
                       Flush MisevalFile]))).
Proof.
  intros board id args w Hit Hk result.
  assert (Hrun := probe_after_steps board id args w [] (engine w) 0 Hk).
  cbv zeta in Hrun. fold result in Hrun.
  specialize (Hrun ltac:(simpl; lia) I eq_refl ltac:(constructor)).
  simpl in Hrun. rewrite ?app_nil_r in Hrun.
  rewrite report_miseval_run in Hrun.
  split.
  - intros Hg. rewrite Hrun. unfold result. rewrite Hg. reflexivity.
  - intros Hg. unfold result in *.
    destruct (spec_classify board); try contradiction; simpl in Hrun.
    + exists BlindToWin. split; [reflexivity|].
      rewrite Hrun, advance_advance. reflexivity.
    + exists BlindToLoss. split; [reflexivity|].
      rewrite Hrun, advance_advance. reflexivity.
Qed.

End ProbeFacts.

(** ** More on the loops of [main] *)

Section Lifting.
Context {X : External}.
Variable args : Args.
Variable P : list event -> Prop.
Hypothesis P_nil : P [].
Hypothesis P_app : forall a b, P a -> P b -> P (a ++ b).
Hypothesis P_call : forall id board, P [Call id board].
Hypothesis P_uniform : forall u, P [Uniform u].
Hypothesis P_probe :
  forall board id w r w',
    maybe_analyse_board board id args w = (r, w') ->
    exists new, trace w' = trace w ++ new /\ P new.

(** A property of traces that holds of every probe and is kept by
    concatenation holds of what the loops add to the trace. *)
Lemma lift_epd_file (lines : list string) :
  forall (count : Z) (w w' : world) (r : res Z),
    analyse_epd_file lines args count w = (r, w') ->
    exists new, trace w' = trace w ++ new /\ P new.
Proof.
  induction lines as [|line rest IH]; intros count w w' r Hrun.
  - simpl in Hrun. injection Hrun as <- <-.
    exists []. now rewrite app_nil_r.
  - rewrite analyse_epd_file_cons in Hrun.
    destruct (set_epd line) as [board|].
    + destruct (maybe_analyse_board _ _ _ _) as [[[]|e] w1] eqn:Hprobe;
        apply P_probe in Hprobe; destruct Hprobe as (new1 & Ht1 & HP1);
        simpl in Ht1.
      * apply IH in Hrun. destruct Hrun as (new2 & Ht2 & HP2).
        exists ([Call (BoardId (count + 1)) board] ++ new1 ++ new2).
        split; [rewrite Ht2, Ht1; now rewrite <- !app_assoc|].
        apply P_app; [apply P_call|]. now apply P_app.
      * injection Hrun as <- <-.
        exists ([Call (BoardId (count + 1)) board] ++ new1).
        split; [rewrite Ht1; now rewrite <- !app_assoc|].
        apply P_app; [apply P_call|assumption].
    + injection Hrun as <- <-. exists []. now rewrite app_nil_r.
Qed.

Lemma lift_epd_list (files : list (list string)) :
  forall (count : Z) (w w' : world) (r : res Z),
    analyse_epd_list files args count w = (r, w') ->
    exists new, trace w' = trace w ++ new /\ P new.
Proof.
  induction files as [|file rest IH]; intros count w w' r Hrun.
  - simpl in Hrun. injection Hrun as <- <-.
    exists []. now rewrite app_nil_r.
  - simpl in Hrun. unfold bind in Hrun.
    destruct (analyse_epd_file file args count w) as [[c1|e] w1] eqn:Hfile;
      apply lift_epd_file in Hfile; destruct Hfile as (new1 & Ht1 & HP1).
    + apply IH in Hrun. destruct Hrun as (new2 & Ht2 & HP2).
      exists (new1 ++ new2).
      split; [rewrite Ht2, Ht1; now rewrite <- app_assoc|now apply P_app].
    + injection Hrun as <- <-. exists new1. now split.
Qed.

Lemma lift_mainline (id : test_id) (moves : list Move) :
  forall (board : Board) (w w' : world) (r : res unit),
    analyse_mainline board moves id args w = (r, w') ->
    exists new, trace w' = trace w ++ new /\ P new.
Proof.
  induction moves as [|move rest IH]; intros board w w' r Hrun.
  - simpl in Hrun. injection Hrun as <- <-.
    exists []. now rewrite app_nil_r.
  - rewrite analyse_mainline_cons in Hrun. cbv zeta in Hrun.
    destruct (uniform (rng w)) as [u g']. cbn [fst snd] in Hrun.
    destruct (SFleb u (rate args)).
    + destruct (maybe_analyse_board _ _ _ _) as [[[]|e] w2] eqn:Hprobe;
        apply P_probe in Hprobe; destruct Hprobe as (new1 & Ht1 & HP1);
        simpl in Ht1.
      * apply IH in Hrun. destruct Hrun as (new2 & Ht2 & HP2).
        exists ([Uniform u] ++ [Call id (push board move)] ++ new1 ++ new2).
        split; [rewrite Ht2, Ht1; now rewrite <- !app_assoc|].
        apply P_app; [apply P_uniform|].
        apply P_app; [apply P_call|]. now apply P_app.
      * injection Hrun as <- <-.
        exists ([Uniform u] ++ [Call id (push board move)] ++ new1).
        split; [rewrite Ht1; now rewrite <- !app_assoc|].
        apply P_app; [apply P_uniform|].
        apply P_app; [apply P_call|assumption].
    + apply IH in Hrun. destruct Hrun as (new2 & Ht2 & HP2).
      simpl in Ht2.
      exists ([Uniform u] ++ new2).
      split; [rewrite Ht2; now rewrite <- !app_assoc|].
      apply P_app; [apply P_uniform|assumption].
Qed.

Lemma lift_pgn_file (games : list Game) :
  forall (count : Z) (w w' : world) (r : res Z),
    analyse_pgn_file games args count w = (r, w') ->
    exists new, trace w' = trace w ++ new /\ P new.
Proof.
  induction games as [|game rest IH]; intros count w w' r Hrun.
  - simpl in Hrun. injection Hrun as <- <-.
    exists []. now rewrite app_nil_r.
  - simpl in Hrun. unfold bind in Hrun.
    destruct (analyse_mainline _ _ _ _ _) as [[[]|e] w1] eqn:Hgame;
      apply lift_mainline in Hgame; destruct Hgame as (new1 & Ht1 & HP1).
    + apply IH in Hrun. destruct Hrun as (new2 & Ht2 & HP2).
      exists (new1 ++ new2).
      split; [rewrite Ht2, Ht1; now rewrite <- app_assoc|now apply P_app].
    + injection Hrun as <- <-. exists new1. now split.
Qed.

Lemma lift_pgn_list (files : list (list Game)) :
  forall (count : Z) (w w' : world) (r : res Z),
    analyse_pgn_list files args count w = (r, w') ->
    exists new, trace w' = trace w ++ new /\ P new.
Proof.
  induction files as [|file rest IH]; intros count w w' r Hrun.
  - simpl in Hrun. injection Hrun as <- <-.
    exists []. now rewrite app_nil_r.
  - simpl in Hrun. unfold bind in Hrun.
    destruct (analyse_pgn_file file args count w) as [[c1|e] w1] eqn:Hfile;
      apply lift_pgn_file in Hfile; destruct Hfile as (new1 & Ht1 & HP1).
    + apply IH in Hrun. destruct Hrun as (new2 & Ht2 & HP2).
      exists (new1 ++ new2).
      split; [rewrite Ht2, Ht1; now rewrite <- app_assoc|now apply P_app].
    + injection Hrun as <- <-. exists new1. now split.
Qed.

Lemma lift_main (epd_list : list (list string)) (pgn_list : list (list Game))
    (w w' : world) (r : res unit) :
  main epd_list pgn_list args w = (r, w') ->
  exists new, trace w' = trace w ++ new /\ P new.
Proof.
  intros Hrun. unfold main, bind, ret in Hrun.
  destruct (analyse_epd_list epd_list args 0 w) as [[c1|e] w1] eqn:Hepd;
    apply lift_epd_list in Hepd; destruct Hepd as (new1 & Ht1 & HP1).
  - destruct (analyse_pgn_list pgn_list args 0 w1) as [[c2|e] w2] eqn:Hpgn;
      apply lift_pgn_list in Hpgn; destruct Hpgn as (new2 & Ht2 & HP2);
      injection Hrun as <- <-;
      exists (new1 ++ new2);
      (split; [rewrite Ht2, Ht1; now rewrite <- app_assoc|now apply P_app]).
  - injection Hrun as <- <-. exists new1. now split.
Qed.

End Lifting.

Section MainFacts.
Context {X : External}.

(** X5. In every run of the loops of [main], however it ends, each
    record written to [samples.epd] or to [failures.epd] is followed at
    once by the flush of that file: when the run stops, by its end or by
    an exception, no record is left in a buffer. *)
Theorem X5_every_record_is_flushed :
  forall (epd_list : list (list string)) (pgn_list : list (list Game))
         (args : Args) (w w' : world) (r : res unit),
    main epd_list pgn_list args w = (r, w') ->
    exists new, trace w' = trace w ++ new /\ flushed_at_once new.
Proof.
  intros epd_list pgn_list args w w' r Hrun.
  refine (lift_main args flushed_at_once _ _ _ _ _
            epd_list pgn_list w w' r Hrun); try reflexivity.
  - apply flushed_at_once_app.
  - intros board id w0 r0 w0' Hprobe.
    destruct (probe_summary board id args w0 w0' r0 Hprobe)
      as (new & nodes & Ht & _ & _ & _ & Hf & _).
    exists new. now split.
Qed.

(** X6. In every run of the loops of [main], however it ends, there are
    no more failure records than sample records, and every failure record
    is for a position (board, halfmove clock and fullmove number) that
    also has a sample record. *)
Theorem X6_failures_are_among_samples :
  forall (epd_list : list (list string)) (pgn_list : list (list Game))
         (args : Args) (w w' : world) (r : res unit),
    main epd_list pgn_list args w = (r, w') ->
    exists new,
      trace w' = trace w ++ new
      /\ (length (written MisevalFile new)
          <= length (written SampleFile new))%nat
      /\ incl (map (fun l => (epd_board l, hmvc l, fmvn l))
                   (written MisevalFile new))
              (map (fun l => (epd_board l, hmvc l, fmvn l))
                   (written SampleFile new)).
Proof.
  intros epd_list pgn_list args w w' r Hrun.
  refine (lift_main args
            (fun new =>
               (length (written MisevalFile new)
                <= length (written SampleFile new))%nat
               /\ incl (map (fun l => (epd_board l, hmvc l, fmvn l))
                            (written MisevalFile new))
                       (map (fun l => (epd_board l, hmvc l, fmvn l))
                            (written SampleFile new)))
            _ _ _ _ _ epd_list pgn_list w w' r Hrun).
  - split; [reflexivity|apply incl_refl].
  - intros a b [Hla Hia] [Hlb Hib].
    rewrite !written_app, !length_app, !map_app. split; [lia|].
    apply incl_app; [now apply incl_appl|now apply incl_appr].
  - intros id board. split; [reflexivity|apply incl_refl].
  - intros u. split; [reflexivity|apply incl_refl].
  - intros board id w0 r0 w0' Hprobe.
    destruct (probe_summary board id args w0 w0' r0 Hprobe)
      as (new & nodes & Ht & _ & _ & _ & _ & Hu & Hs & Hm).
    exists new. split; [assumption|].
    assert (Hcase : spec_classify board = Unknown
                    \/ spec_classify board <> Unknown).
    { destruct (spec_classify board); auto; right; discriminate. }
    destruct Hcase as [Hg|Hk].
    + rewrite (Hu Hg). split; [reflexivity|apply incl_refl].
    + rewrite (Hs Hk).
      destruct Hm as [->|(ty & ce & ->)].
      * split; [simpl; lia|intros x []].
      * split; [reflexivity|apply incl_refl].
Qed.

(** X7. In every run of the loops of [main], however it ends, the number
    of searches asked of the engine is at most [iters] times the number
    of sample records: only positions that were recorded as samples are
    searched, each at most [iters] times. *)
Theorem X7_search_budget :
  forall (epd_list : list (list string)) (pgn_list : list (list Game))
         (args : Args) (w w' : world) (r : res unit),
    main epd_list pgn_list args w = (r, w') ->
    exists new,
      trace w' = trace w ++ new
      /\ (length (searched new)
          <= Z.to_nat (iters args) * length (written SampleFile new))%nat.
Proof.
  intros epd_list pgn_list args w w' r Hrun.
  refine (lift_main args
            (fun new =>
               (length (searched new)
                <= Z.to_nat (iters args) * length (written SampleFile new))%nat)
            _ _ _ _ _ epd_list pgn_list w w' r Hrun).
  - simpl. lia.
  - intros a b Ha Hb.
    rewrite searched_app, written_app, !length_app, Nat.mul_add_distr_l. lia.
  - intros id board. simpl. lia.
  - intros u. simpl. lia.
  - intros board id w0 r0 w0' Hprobe.
    destruct (probe_summary board id args w0 w0' r0 Hprobe)
      as (new & nodes & Ht & Hse & _ & Hl & _ & Hu & Hs & _).
    exists new. split; [assumption|].
    assert (Hcase : spec_classify board = Unknown
                    \/ spec_classify board <> Unknown).
    { destruct (spec_classify board); auto; right; discriminate. }
    destruct Hcase as [Hg|Hk].
    + rewrite (Hu Hg). simpl. lia.
    + rewrite (Hs Hk), Hse, length_map. simpl. lia.
Qed.

End MainFacts.

Section EpdFacts.
Context {X : External}.

Lemma analyse_epd_file_app (args : Args) (pre rest : list string) :
  forall (count : Z) (w : world),
    analyse_epd_file (pre ++ rest) args count w
    = match analyse_epd_file pre args count w with
      | (Ret c, w1) => analyse_epd_file rest args c w1
      | (Raise e, w1) => (Raise e, w1)
      end.
Proof.
  induction pre as [|line pre IH]; intros count w; [reflexivity|].
  cbn [app]. rewrite !analyse_epd_file_cons.
  destruct (set_epd line) as [board|]; [|reflexivity].
  destruct (maybe_analyse_board _ _ _ _) as [[[]|e] w1]; [apply IH|reflexivity].
Qed.

Lemma analyse_epd_list_app (args : Args) (before rest : list (list string)) :
  forall (count : Z) (w : world),
    analyse_epd_list (before ++ rest) args count w
    = match analyse_epd_list before args count w with
      | (Ret c, w1) => analyse_epd_list rest args c w1
      | (Raise e, w1) => (Raise e, w1)
      end.
Proof.
  induction before as [|file before IH]; intros count w; [reflexivity|].
  cbn [app]. simpl. unfold bind.
  destruct (analyse_epd_file file args count w) as [[c|e] w1];
    [apply IH|reflexivity].
Qed.

Lemma seq_add_map {A} (g : nat -> A) (a len : nat) :
  forall start,
    map g (seq (a + start) len) = map (fun i => g (a + i)%nat) (seq start len).
Proof.
  induction len as [|len IH]; intros start; [reflexivity|].
  simpl. f_equal. rewrite <- IH. now rewrite Nat.add_succ_r.
Qed.

Lemma analyse_epd_file_numbers (args : Args) (lines : list string) :
  forall (count c : Z) (w w' : world),
    analyse_epd_file lines args count w = (Ret c, w') ->
    c = count + Z.of_nat (length lines)
    /\ exists new,
        trace w' = trace w ++ new
        /\ map fst (calls new)
           = map (fun i => BoardId (count + Z.of_nat i)) (seq 1 (length lines)).
Proof.
  induction lines as [|line rest IH]; intros count c w w' Hrun.
  - simpl in Hrun. injection Hrun as <- <-. split; [simpl; lia|].
    exists []. now rewrite app_nil_r.
  - rewrite analyse_epd_file_cons in Hrun.
    destruct (set_epd line) as [board|]; [|discriminate].
    destruct (maybe_analyse_board _ _ _ _) as [[[]|e] w1] eqn:Hprobe;
      [|discriminate].
    apply probe_frame in Hprobe.
    destruct Hprobe as (_ & new1 & Ht1 & Hc1 & _). simpl in Ht1.
    apply IH in Hrun. destruct Hrun as (-> & new2 & Ht2 & Hc2).
    split; [simpl length; lia|].
    exists ([Call (BoardId (count + 1)) board] ++ new1 ++ new2).
    split; [rewrite Ht2, Ht1; now rewrite <- !app_assoc|].
    rewrite !calls_app, Hc1. simpl. rewrite Hc2.
    f_equal. rewrite <- (seq_shift (length rest) 1), map_map.
    apply map_ext. intros i. f_equal. lia.
Qed.

(** X8. The positions of the EPD files are numbered in one sequence:
    when the loop over the files ends normally, the identifiers of its
    calls are [count + 1], [count + 2], ... without a gap and without a
    restart at a new file, and the loop ends with [count] raised by the
    number of lines of all the files. *)
Theorem X8_epd_positions_numbered :
  forall (files : list (list string)) (args : Args) (count c : Z)
         (w w' : world),
    analyse_epd_list files args count w = (Ret c, w') ->
    c = count + Z.of_nat (length (concat files))
    /\ exists new,
        trace w' = trace w ++ new
        /\ map fst (calls new)
           = map (fun i => BoardId (count + Z.of_nat i))
                 (seq 1 (length (concat files))).
Proof.
  induction files as [|file rest IH]; intros args count c w w' Hrun.
  - simpl in Hrun. injection Hrun as <- <-. split; [simpl; lia|].
    exists []. now rewrite app_nil_r.
  - simpl in Hrun. unfold bind in Hrun.
    destruct (analyse_epd_file file args count w) as [[c1|e] w1] eqn:Hfile;
      [|discriminate].
    apply analyse_epd_file_numbers in Hfile.
    destruct Hfile as (-> & new1 & Ht1 & Hc1).
    apply IH in Hrun. destruct Hrun as (-> & new2 & Ht2 & Hc2).
    simpl concat. rewrite length_app.
    split; [lia|].
    exists (new1 ++ new2).
    split; [rewrite Ht2, Ht1; now rewrite <- app_assoc|].
    rewrite calls_app, map_app, Hc1, Hc2, seq_app, map_app. f_equal.
    replace (1 + length file)%nat with (length file + 1)%nat by lia.
    rewrite seq_add_map. apply map_ext. intros i. f_equal. lia.
Qed.

(** X9. A line of an EPD file that does not parse ends the run with
    [ValueError]: the positions before it have been analysed, the world
    is left as it was after the last of them, and nothing that comes
    after the line, in its file, in the later EPD files or in the PGN
    files, is analysed. *)
Theorem X9_malformed_epd_line_stops_run :
  forall (before after : list (list string)) (pre post : list string)
         (bad : string) (pgn_list : list (list Game)) (args : Args)
         (w w0 w1 : world) (c0 c1 : Z),
    set_epd bad = None ->
    analyse_epd_list before args 0 w = (Ret c0, w0) ->
    analyse_epd_file pre args c0 w0 = (Ret c1, w1) ->
    main (before ++ (pre ++ bad :: post) :: after) pgn_list args w
    = (Raise ValueError, w1).
Proof.
  intros before after pre post bad pgn_list args w w0 w1 c0 c1
         Hbad Hbefore Hpre.
  unfold main. unfold bind at 1.
  rewrite analyse_epd_list_app, Hbefore.
  simpl. unfold bind at 1.
  rewrite analyse_epd_file_app, Hpre, analyse_epd_file_cons, Hbad.
  reflexivity.
Qed.

End EpdFacts.

(** ** The directories of the tablebases *)

Section Directories.

Lemma split_not_nil (sep : ascii) (s : string) : split sep s <> [].
Proof.
  destruct s as [|c rest]; simpl; [discriminate|].
  destruct (Ascii.eqb c sep); [discriminate|].
  destruct (split sep rest); discriminate.
Qed.

Lemma join_split (sep : ascii) (s : string) : join sep (split sep s) = s.
Proof.
  induction s as [|c rest IH]; [reflexivity|].
  simpl. destruct (Ascii.eqb_spec c sep) as [->|Hc].
  - pose proof (split_not_nil sep rest) as Hne.
    destruct (split sep rest) as [|part parts]; [contradiction|].
    cbn [join]. cbn [join] in IH. simpl. now rewrite IH.
  - pose proof (split_not_nil sep rest) as Hne.
    destruct (split sep rest) as [|part parts]; [contradiction|].
    destruct parts as [|part' parts].
    + simpl in *. now rewrite IH.
    + cbn [join] in *. simpl. now rewrite IH.
Qed.

Lemma split_free (sep : ascii) (s : string) :
  Forall (free_of sep) (split sep s).
Proof.
  induction s as [|c rest IH]; [repeat constructor|].
  simpl. destruct (Ascii.eqb_spec c sep) as [->|Hc].
  - constructor; [reflexivity|assumption].
  - destruct (split sep rest) as [|part parts].
    + constructor; [|constructor]. unfold free_of. simpl.
      destruct (Ascii.eqb_spec c sep); [contradiction|reflexivity].
    + inversion IH as [|? ? Hp Hps]; subst.
      constructor; [|assumption]. unfold free_of in *. simpl.
      destruct (Ascii.eqb_spec c sep); [contradiction|assumption].
Qed.

Lemma split_length (sep : ascii) (s : string) :
  length (split sep s) = S (occurrences sep s).
Proof.
  induction s as [|c rest IH]; [reflexivity|].
  simpl. destruct (Ascii.eqb c sep).
  - simpl. now rewrite IH.
  - destruct (split sep rest) as [|part parts]; [discriminate|exact IH].
Qed.

Lemma split_free_string (sep : ascii) (s : string) :
  free_of sep s -> split sep s = [s].
Proof.
  unfold free_of. induction s as [|c rest IH]; [reflexivity|].
  simpl. destruct (Ascii.eqb c sep); [discriminate|].
  intros H. now rewrite (IH H).
Qed.

Lemma split_append (sep : ascii) (p t : string) :
  free_of sep p ->
  split sep (String.append p (String sep t)) = p :: split sep t.
Proof.
  unfold free_of. induction p as [|c rest IH].
  - intros _. simpl. now rewrite Ascii.eqb_refl.
  - simpl. destruct (Ascii.eqb c sep); [discriminate|].
    intros H. now rewrite (IH H).
Qed.

(** X10. The option [syzygy_path] is cut at every separator of the
    platform ([;] on Windows, [:] elsewhere) and nowhere else: there is
    one directory more than there are separators in the option (so at
    least one, the empty name for an empty option), no directory name
    contains the separator, and the names joined by the separator give
    back the option. *)
Theorem X10_directories_of_the_option :
  forall (system syzygy_path : string),
    let sep := PATH_SEPARATOR system in
    let dirs := tablebase_directories system syzygy_path in
    length dirs = S (occurrences sep syzygy_path)
    /\ Forall (free_of sep) dirs
    /\ join sep dirs = syzygy_path.
Proof.
  intros system syzygy_path sep dirs. unfold dirs, tablebase_directories.
  fold sep. split; [apply split_length|].
  split; [apply split_free|apply join_split].
Qed.

(** X11. Conversely, any list of at least one directory whose names are
    free of the separator of the platform is what the loop of
    [tb.add_directory] gets from the names joined by that separator, in
    the same order. *)
Theorem X11_directories_are_recovered :
  forall (system : string) (dirs : list string),
    dirs <> [] ->
    Forall (free_of (PATH_SEPARATOR system)) dirs ->
    tablebase_directories system (join (PATH_SEPARATOR system) dirs) = dirs.
Proof.
  intros system dirs Hne Hfree. unfold tablebase_directories.
  set (sep := PATH_SEPARATOR system) in *.
  induction dirs as [|p rest IH]; [contradiction|].
  inversion Hfree as [|? ? Hp Hrest]; subst.
  destruct rest as [|q rest].
  - simpl. now apply split_free_string.
  - cbn [join]. rewrite split_append by assumption.
    f_equal. apply IH; [discriminate|assumption].
Qed.

End Directories.

(** ** The first node count *)

Section FirstNodeCount.
Context {X : External}.

Lemma digits2_pos_shift (m : positive) (k : positive) :
  Z.pos (digits2_pos (Pos.iter xO m k)) = Z.pos (digits2_pos m) + Z.pos k.
Proof.
  induction k as [|k IH] using Pos.peano_ind.
  - simpl. lia.
  - rewrite Pos.iter_succ. simpl. lia.
Qed.

Lemma Zpos_shift (m : positive) (k : positive) :
  Z.pos (Pos.iter xO m k) = Z.pos m * 2 ^ Z.pos k.
Proof.
  induction k as [|k IH] using Pos.peano_ind.
  - simpl. lia.
  - rewrite Pos.iter_succ, Pos2Z.inj_succ, Z.pow_succ_r by lia.
    rewrite Pos2Z.inj_xO, IH. lia.
Qed.

Lemma digits2_pos_bound (m : positive) :
  2 ^ (Z.pos (digits2_pos m) - 1) <= Z.pos m.
Proof.
  induction m as [m IH|m IH|]; simpl digits2_pos.
  - rewrite Pos2Z.inj_succ. replace (Z.succ (Z.pos (digits2_pos m)) - 1)
      with (Z.succ (Z.pos (digits2_pos m) - 1)) by lia.
    rewrite Z.pow_succ_r by lia. lia.
  - rewrite Pos2Z.inj_succ. replace (Z.succ (Z.pos (digits2_pos m)) - 1)
      with (Z.succ (Z.pos (digits2_pos m) - 1)) by lia.
    rewrite Z.pow_succ_r by lia. lia.
  - simpl. lia.
Qed.

Lemma digits2_pos_small (m : positive) :
  Z.pos m < 2 ^ 53 -> Z.pos (digits2_pos m) <= 53.
Proof.
  intros Hm. pose proof (digits2_pos_bound m) as Hb.
  destruct (Z.le_gt_cases (Z.pos (digits2_pos m)) 53) as [H|H]; [assumption|].
  exfalso.
  assert (2 ^ 53 <= 2 ^ (Z.pos (digits2_pos m) - 1))
    by (apply Z.pow_le_mono_r; lia).
  lia.
Qed.

Lemma shr_fexp_noshift (m e : Z) (l : location) :
  fexp prec emax (Zdigits2 m + e) - e <= 0 ->
  shr_fexp prec emax m e l = (shr_record_of_loc m l, e).
Proof.
  intros H. unfold shr_fexp, shr.
  destruct (fexp prec emax (Zdigits2 m + e) - e) as [|p|p]; try reflexivity.
  lia.
Qed.

Lemma shr_fexp_shift (m e : Z) (l : location) (k : positive) :
  fexp prec emax (Zdigits2 m + e) - e = Z.pos k ->
  shr_fexp prec emax m e l
  = (iter_pos shr_1 k (shr_record_of_loc m l), e + Z.pos k).
Proof. intros H. unfold shr_fexp, shr. now rewrite H. Qed.

Lemma shr_exact (k : positive) :
  forall q,
    iter_pos shr_1 k
      {| shr_m := Z.pos (Pos.iter xO q k); shr_r := false; shr_s := false |}
    = {| shr_m := Z.pos q; shr_r := false; shr_s := false |}.
Proof.
  induction k as [k IH|k IH|]; intros q; simpl.
  - now rewrite IH, IH.
  - now rewrite IH, IH.
  - reflexivity.
Qed.

(** A float of 53 bits in the range of the exponents is what rounding
    makes of its own mantissa and exponent. *)
Lemma binary_round_aux_canonical (s : bool) (mz : positive) (ez : Z) :
  Z.pos (digits2_pos mz) = 53 ->
  -1074 <= ez <= 971 ->
  binary_round_aux prec emax s (Z.pos mz) ez loc_Exact = S754_finite s mz ez.
Proof.
  intros Hd He.
  assert (Hshift : fexp prec emax (Zdigits2 (Z.pos mz) + ez) - ez <= 0).
  { simpl Zdigits2. rewrite Hd. unfold fexp, emin, prec, emax. lia. }
  unfold binary_round_aux.
  rewrite (shr_fexp_noshift _ _ _ Hshift).
  cbn [shr_record_of_loc shr_m loc_of_shr_record round_nearest_even].
  rewrite (shr_fexp_noshift _ _ _ Hshift).
  cbn [shr_record_of_loc shr_m].
  replace (ez <=? emax - prec) with true; [reflexivity|].
  symmetry. apply Z.leb_le. unfold emax, prec. lia.
Qed.

(** The float of a non-zero integer below [2^53]: its mantissa shifted
    to 53 bits. *)
Lemma of_int_small (s : bool) (m : positive) :
  Z.pos m < 2 ^ 53 ->
  exists mz ez,
    of_int (cond_Zopp s (Z.pos m)) = Ret (S754_finite s mz ez)
    /\ Z.pos (digits2_pos mz) = 53
    /\ -52 <= ez <= 0
    /\ Z.pos mz = Z.pos m * 2 ^ (- ez).
Proof.
  intros Hm. pose proof (digits2_pos_small m Hm) as Hd.
  assert (Hd1 : 1 <= Z.pos (digits2_pos m)) by lia.
  assert (Hround :
            exists mz ez,
              binary_round prec emax s m 0 = S754_finite s mz ez
              /\ Z.pos (digits2_pos mz) = 53
              /\ -52 <= ez <= 0
              /\ Z.pos mz = Z.pos m * 2 ^ (- ez)).
  { unfold binary_round.
    assert (Hf : fexp prec emax (Z.pos (digits2_pos m) + 0)
                 = Z.pos (digits2_pos m) - 53).
    { unfold fexp, emin, prec, emax. lia. }
    rewrite Hf. unfold shl_align.
    destruct (Z.pos (digits2_pos m) - 53 - 0) as [|k|k] eqn:Hk.
    - exists m, 0. split; [|split; [|split]]; try lia.
      apply binary_round_aux_canonical; lia.
    - lia.
    - exists (Pos.iter xO m k), (Z.pos (digits2_pos m) - 53).
      assert (Hkd : Z.pos k = 53 - Z.pos (digits2_pos m)) by lia.
      split; [|split; [|split]]; try lia.
      + apply binary_round_aux_canonical; [|lia].
        rewrite digits2_pos_shift. lia.
      + rewrite digits2_pos_shift. lia.
      + rewrite Zpos_shift. f_equal. f_equal. lia. }
  destruct Hround as (mz & ez & Hr & Hdz & Hez & Hmz).
  exists mz, ez. split; [|auto].
  unfold of_int. destruct s; simpl cond_Zopp; simpl binary_normalize;
    now rewrite Hr.
Qed.

(** [f * 1.0] is [f] for such a float. *)
Lemma SFmul_one (s : bool) (mz : positive) (ez : Z) :
  Z.pos (digits2_pos mz) = 53 ->
  -52 <= ez <= 0 ->
  SFmul prec emax (S754_finite s mz ez) one = S754_finite s mz ez.
Proof.
  intros Hd He.
  change one with (S754_finite false 4503599627370496 (-52)).
  unfold SFmul. rewrite xorb_false_r.
  rewrite Pos.mul_comm.
  change (Z.pos (4503599627370496 * mz)) with (Z.pos (Pos.iter xO mz 52)).
  unfold binary_round_aux.
  assert (Hshift : fexp prec emax (Zdigits2 (Z.pos (Pos.iter xO mz 52))
                                   + (ez + -52)) - (ez + -52) = Z.pos 52).
  { unfold Zdigits2. rewrite digits2_pos_shift, Hd.
    unfold fexp, emin, prec, emax. lia. }
  rewrite (shr_fexp_shift _ _ _ 52 Hshift).
  cbn [shr_record_of_loc]. rewrite shr_exact.
  cbn [shr_m loc_of_shr_record round_nearest_even].
  replace (ez + -52 + 52) with ez by lia.
  assert (Hnoshift : fexp prec emax (Zdigits2 (Z.pos mz) + ez) - ez <= 0).
  { simpl Zdigits2. rewrite Hd. unfold fexp, emin, prec, emax. lia. }
  rewrite (shr_fexp_noshift _ _ _ Hnoshift).
  cbn [shr_record_of_loc shr_m].
  replace (ez <=? emax - prec) with true; [reflexivity|].
  symmetry. apply Z.leb_le. unfold emax, prec. lia.
Qed.

Lemma round_half_even_exact (m mz : positive) (ez : Z) :
  -52 <= ez <= 0 ->
  Z.pos mz = Z.pos m * 2 ^ (- ez) ->
  round_half_even mz ez = Z.pos m.
Proof.
  intros He Hmz. unfold round_half_even.
  destruct (Z.leb_spec 0 ez) as [H0|H0].
  - assert (ez = 0) by lia. subst ez. simpl in Hmz. rewrite Hmz. simpl. lia.
  - assert (Hpow : 0 < 2 ^ (- ez)) by (apply Z.pow_pos_nonneg; lia).
    rewrite Hmz, Z.div_mul, Z.mod_mul by lia.
    simpl Z.mul.
    destruct (Z.compare_spec 0 (2 ^ (- ez))) as [H|H|H]; lia.
Qed.

(** X4. With at least two iterations and a minimal node count [min_nodes]
    that is not zero and is below [2^53] in absolute value, the node
    count of the first iteration is exactly [min_nodes], whatever the
    maximal node count and the platform's [pow] are, as soon as the
    quotient [max_nodes / min_nodes] fits a float. *)
Theorem X4_first_node_count_is_min_nodes :
  forall (args : Args) (x : float),
    2 <= iters args ->
    min_nodes args <> 0 ->
    Z.abs (min_nodes args) < 2 ^ 53 ->
    int_true_div (max_nodes args) (min_nodes args) = Ret x ->
    cur_nodes args 0 = Ret (min_nodes args).
Proof.
  intros args x Hit Hmin Hsmall Hx.
  unfold cur_nodes. rewrite Hx.
  assert (Hp : int_true_div 0 (iters args - 1) = Ret (S754_zero false)).
  { unfold int_true_div.
    destruct (Z.eqb_spec (iters args - 1) 0) as [H0|_]; [lia|].
    destruct (Z.ltb_spec (iters args - 1) 0) as [H0|_]; [lia|].
    reflexivity. }
  rewrite Hp.
  change (float_pow libm_pow x (S754_zero false)) with (Ret (VFloat one)).
  assert (Hsign : exists s m,
             min_nodes args = cond_Zopp s (Z.pos m) /\ Z.pos m < 2 ^ 53).
  { destruct (min_nodes args) as [|m|m]; [contradiction| |].
    - exists false, m. split; [reflexivity|]. simpl in Hsmall. lia.
    - exists true, m. split; [reflexivity|]. simpl in Hsmall. lia. }
  destruct Hsign as (s & m & Hm & Hlt). rewrite Hm.
  destruct (of_int_small s m Hlt) as (mz & ez & Hof & Hd & He & Hmz).
  unfold int_mul. rewrite Hof, (SFmul_one s mz ez Hd He).
  simpl round. now rewrite (round_half_even_exact m mz ez He Hmz).
Qed.

End FirstNodeCount.

(** ** A minimal node count equal to the maximal one, or zero *)

Section DegenerateSchedules.
Context {X : External}.

Lemma div_eucl_shift (m : positive) :
  Z.div_eucl (Z.shiftl (Z.pos m) 53) (Z.pos m) = (2 ^ 53, 0).
Proof.
  rewrite Z.shiftl_mul_pow2 by lia.
  pose proof (Z.div_mul (2 ^ 53) (Z.pos m) ltac:(lia)) as Hq.
  pose proof (Z.mod_mul (2 ^ 53) (Z.pos m) ltac:(lia)) as Hr.
  rewrite (Z.mul_comm (2 ^ 53)) in Hq, Hr.
  unfold Z.div, Z.modulo in Hq, Hr.
  destruct (Z.div_eucl (Z.pos m * 2 ^ 53) (Z.pos m)) as [q r].
  simpl in Hq, Hr. now subst.
Qed.

(** [a / a] is [1.0]. *)
Lemma int_true_div_self (a : Z) : a <> 0 -> int_true_div a a = Ret one.
Proof.
  intros Ha. unfold int_true_div.
  destruct (Z.eqb_spec a 0) as [H0|_]; [contradiction|].
  rewrite xorb_nilpotent.
  assert (Hm : exists m, Z.abs a = Z.pos m).
  { destruct a as [|m|m]; [contradiction| |]; exists m; reflexivity. }
  destruct Hm as [m ->].
  unfold SFdiv_core_binary.
  replace (Zdigits2 (Z.pos m) + 0 - (Zdigits2 (Z.pos m) + 0)) with 0 by lia.
  change (Z.min (fexp prec emax 0) (0 - 0)) with (-53).
  change (0 - 0 - -53) with 53.
  cbv iota beta zeta.
  rewrite div_eucl_shift.
  unfold new_location.
  destruct (Z.even (Z.pos m)); reflexivity.
Qed.

(** [1.0 ** p] is [1.0], whatever [p] is. *)
Lemma float_pow_one_base (pw : float -> float -> float) (p : float) :
  float_pow pw one p = Ret (VFloat one).
Proof. destruct p as [s|s| |s m e]; try destruct s; reflexivity. Qed.

Lemma cur_nodes_equal_bounds (args : Args) (n : Z) (p : float) :
  min_nodes args <> 0 ->
  Z.abs (min_nodes args) < 2 ^ 53 ->
  max_nodes args = min_nodes args ->
  int_true_div n (iters args - 1) = Ret p ->
  cur_nodes args n = Ret (min_nodes args).
Proof.
  intros Hmin Hsmall Hmax Hp.
  unfold cur_nodes. rewrite Hp, Hmax, (int_true_div_self _ Hmin).
  rewrite float_pow_one_base.
  assert (Hsign : exists s m,
             min_nodes args = cond_Zopp s (Z.pos m) /\ Z.pos m < 2 ^ 53).
  { destruct (min_nodes args) as [|m|m]; [contradiction| |].
    - exists false, m. split; [reflexivity|]. simpl in Hsmall. lia.
    - exists true, m. split; [reflexivity|]. simpl in Hsmall. lia. }
  destruct Hsign as (s & m & Hm & Hlt). rewrite Hm.
  destruct (of_int_small s m Hlt) as (mz & ez & Hof & Hd & He & Hmz).
  unfold int_mul. rewrite Hof, (SFmul_one s mz ez Hd He).
  simpl round. now rewrite (round_half_even_exact m mz ez He Hmz).
Qed.

(** X12. When the maximal node count equals the minimal one (not zero,
    below [2^53] in absolute value), every iteration searches with
    exactly that node count: the base of the power is [1.0], the
    platform's [pow] is not consulted, and the node count fails only
    where the exponent [n / (iters - 1)] itself cannot be computed. *)
Theorem X12_equal_bounds_give_constant_schedule :
  forall (args : Args) (n : Z),
    min_nodes args <> 0 ->
    Z.abs (min_nodes args) < 2 ^ 53 ->
    max_nodes args = min_nodes args ->
    cur_nodes args n
    = match int_true_div n (iters args - 1) with
      | Ret _ => Ret (min_nodes args)
      | Raise e => Raise e
      end.
Proof.
  intros args n Hmin Hsmall Hmax.
  destruct (int_true_div n (iters args - 1)) as [p|e] eqn:Hp.
  - now apply (cur_nodes_equal_bounds args n p).
  - unfold cur_nodes. now rewrite Hp.
Qed.

(** X13. With a minimal node count of zero and at least one iteration,
    no position is ever searched: the probe of every position that the
    tablebase knows writes and flushes the sample record, announces the
    analysis and ends with [ZeroDivisionError] at its first iteration. *)
Theorem X13_zero_min_nodes_fails_every_probe :
  forall (board : Board) (id : test_id) (args : Args) (w : world),
    1 <= iters args ->
    min_nodes args = 0 ->
    spec_classify board <> Unknown ->
    maybe_analyse_board board id args w
    = (Raise ZeroDivisionError,
       advance w (engine w)
         (probe_prefix board id (symbol (spec_classify board)))).
Proof.
  intros board id args w Hit Hmin Hk.
  assert (Hn : cur_nodes args 0 = Raise ZeroDivisionError).
  { destruct (Z.eq_dec (iters args) 1) as [H1|H1].
    - now apply cur_nodes_one_iteration.
    - unfold cur_nodes, int_true_div at 1.
      destruct (Z.eqb_spec (iters args - 1) 0) as [H0|_]; [lia|].
      simpl. rewrite Hmin. reflexivity. }
  rewrite (probe_after_steps board id args w [] (engine w)
             (Z.to_nat (iters args)) Hk);
    [|reflexivity|exact I|reflexivity|constructor].
  destruct (Z.to_nat (iters args)) as [|left] eqn:Hleft; [lia|].
  cbn [length seq map]. rewrite search_loop_cons.
  change (Z.of_nat 0) with 0. rewrite Hn. now rewrite app_nil_r.
Qed.

End DegenerateSchedules.


(** ** The node counts of a probe *)

Section Schedule.
Context {X : External}.













(** With node counts of opposite signs the second of three iterations
    has no node count, whatever the platform's [pow] is: the power of a
    negative float with the exponent [0.5] is a complex number, which
    [round] refuses. *)
Lemma mixed_sign_schedule :
  map (cur_nodes Scripted.mixed_sign_args) (range 3)
  = [Ret (-4); Raise TypeError; Ret 4].
Proof. reflexivity. Qed.

(** A minimal node count of [2^53 + 1] is not the first node count,
    whatever the platform's [pow] is: no float holds it. *)
Lemma large_first_node_count :
  cur_nodes Scripted.large_args 0 = Ret 9007199254740992.
Proof. reflexivity. Qed.


End Schedule.
(** ** Runs in the scripted world *)

Section ScriptedRuns.
Import Scripted.

(** The schedule of the default options. *)
Example default_schedule :
  map (@cur_nodes env default_args) (range 5)
  = [Ret 10000; Ret 31623; Ret 100000; Ret 316228; Ret 1000000].
Proof. vm_compute. reflexivity. Qed.

(** A drawn position that the engine scores 450 at every node count:
    one sample record, one failure record. *)
Example end_to_end_optimistic_draw :
  trace (snd (maybe_analyse_board (board 0) (BoardId 1) default_args
                (start [Some 450; Some 450; Some 450; Some 450; Some 450] [])))
  = [Write SampleFile (epd (board 0) None None); Flush SampleFile;
     Print (Analyzing (BoardId 1) (board 0) "=");
     Analyse (board 0) 10000 (Some 450); Analyse (board 0) 31623 (Some 450);
     Analyse (board 0) 100000 (Some 450); Analyse (board 0) 316228 (Some 450);
     Analyse (board 0) 1000000 (Some 450);
     Write MisevalFile (epd (board 0) (Some "Optimistic draw eval"%string) (Some 450));
     Flush MisevalFile; Print (Unsolved 1000000 450)].
Proof. reflexivity. Qed.

(** C1 at the example of the specification: a won position, a score of
    300 at the first node count, [win = 200]. *)
Lemma C1_witness :
  maybe_analyse_board (board 37) (BoardId 1) default_args
    (start [Some 300; Some 0] [])
  = (Ret tt,
     state [Some 0] []
       [Write SampleFile (epd (board 37) None None); Flush SampleFile;
        Print (Analyzing (BoardId 1) (board 37) "+");
        Analyse (board 37) 10000 (Some 300); Print (Solved 10000 300)]).
Proof.
  apply (proj1 (C1_solved_exactly_at_first_success
                  (board 37) (BoardId 1) default_args
                  (start [Some 300; Some 0] []) [] 10000 300 [Some 0]
                  ltac:(discriminate) ltac:(simpl; lia)
                  ltac:(split; [vm_compute; reflexivity | exact I])
                  ltac:(exists [Some 0]; split; reflexivity)
                  ltac:(constructor))).
  right. left. split; [reflexivity | simpl; lia].
Defined.



(** C3: a DTZ of 150 is a draw, and a checkmate is skipped. *)
Lemma C3_witness :
  ground_truth 150 = symbol Draw
  /\ maybe_analyse_board (board 1000) (BoardId 1) default_args (start [] [])
     = (Ret tt, start [] []).
Proof.
  split.
  - apply (proj1 (proj1 (proj2 (@C3_finished_games_are_skipped env rules
                                  (board 150) (BoardId 1) default_args
                                  (start [] [])))
                        150 eq_refl eq_refl)).
    right. simpl. lia.
  - apply (proj1 (@C3_finished_games_are_skipped env rules
                    (board 1000) (BoardId 1) default_args (start [] []))).
    left. reflexivity.
Defined.

(** C3 as the claim states it fails on king against king: the position
    is neither a checkmate nor a stalemate and the tablebase gives it a
    DTZ of 0, a draw in the words of the claim, but the game is over by
    insufficient material and the code skips the position. *)
Lemma C3_counterexample :
  checkmate (@termination kings_env kings_rules (kings_board 0)) = false
  /\ stalemate (@termination kings_env kings_rules (kings_board 0)) = false
  /\ @get_dtz kings_env (kings_board 0) = Some 0
  /\ @claimed_classify kings_env kings_rules (kings_board 0) = Draw
  /\ spec_classify (kings_board 0) = Unknown
  /\ maybe_analyse_board (kings_board 0) (BoardId 1) default_args
       (kings_start [Some 0])
     = (Ret tt, kings_start [Some 0]).
Proof. repeat split. Qed.

(** C4: the four examples of the specification. *)
Lemma C4_witness :
  miseval_type (symbol Draw) (Some 250) default_args
  = Ret (label_text OptimisticDraw)
  /\ miseval_type (symbol Draw) (Some (-250)) default_args
     = Ret (label_text PessimisticDraw)
  /\ miseval_type (symbol Win) (Some (-10)) default_args
     = Ret (label_text BlindToWin)
  /\ miseval_type (symbol Loss) (Some 10) default_args
     = Ret (label_text BlindToLoss).
Proof.
  apply (proj1 (proj2
           (C4_miseval_label (board 0) (BoardId 1) default_args
              (start [Some 450; Some 450; Some 450; Some 450; Some 450] [])
              _ _ ltac:(simpl; lia) (surjective_pairing _)))).
  reflexivity.
Defined.

(** C5 at the example of the specification: a drawn position, an engine
    that always answers 500. *)
Lemma C5_witness :
  exists label,
    spec_label Draw 500 default_args = Some label
    /\ maybe_analyse_board (board 0) (BoardId 1) default_args
         (start [Some 500; Some 500; Some 500; Some 500; Some 500] [])
       = (Ret tt,
          state [] []
            [Write SampleFile (epd (board 0) None None); Flush SampleFile;
             Print (Analyzing (BoardId 1) (board 0) "=");
             Analyse (board 0) 10000 (Some 500); Analyse (board 0) 31623 (Some 500);
             Analyse (board 0) 100000 (Some 500); Analyse (board 0) 316228 (Some 500);
             Analyse (board 0) 1000000 (Some 500);
             Write MisevalFile (epd (board 0) (Some (label_text label)) (Some 500));
             Flush MisevalFile; Print (Unsolved 1000000 500)]).
Proof.
  apply (C5_exhausted_probe (board 0) (BoardId 1) default_args
           (start [Some 500; Some 500; Some 500; Some 500; Some 500] [])
           [(10000, 500); (31623, 500); (100000, 500); (316228, 500)]
           1000000 500 []).
  - discriminate.
  - reflexivity.
  - vm_compute. repeat split.
  - simpl. repeat (eexists; split; [reflexivity|]). reflexivity.
  - repeat constructor; unfold spec_solved; simpl;
      intros [[_ H]|[[H _]|[H _]]]; discriminate || lia.
Defined.

(** C6: the engine gives a score that does not solve the position, then
    none. *)
Lemma C6_witness :
  maybe_analyse_board (board 0) (BoardId 1) default_args
    (start [Some 500; None; Some 0] [])
  = (Ret tt,
     state [Some 0] []
       [Write SampleFile (epd (board 0) None None); Flush SampleFile;
        Print (Analyzing (BoardId 1) (board 0) "=");
        Analyse (board 0) 10000 (Some 500); Analyse (board 0) 31623 None; Print Error]).
Proof.
  apply (C6_missing_score_aborts_probe (board 0) (BoardId 1) default_args
           (start [Some 500; None; Some 0] [])
           [(10000, 500)] 31623 [None; Some 0] [Some 0]).
  - discriminate.
  - simpl. lia.
  - vm_compute. repeat split.
  - vm_compute. reflexivity.
  - simpl. eexists; split; reflexivity.
  - repeat constructor; unfold spec_solved; simpl;
      intros [[_ H]|[[H _]|[H _]]]; discriminate || lia.
  - reflexivity.
Defined.

(** C7: with one iteration the node count of the first iteration divides
    by zero. *)
Lemma C7_witness :
  @cur_nodes env one_iter_args 0 = Raise ZeroDivisionError
  /\ maybe_analyse_board (board 37) (BoardId 1) one_iter_args
       (start [Some 300] [])
     = (Raise ZeroDivisionError,
        state [Some 300] []
          [Write SampleFile (epd (board 37) None None); Flush SampleFile;
           Print (Analyzing (BoardId 1) (board 37) "+")]).
Proof.
  pose proof (@C7_division_by_zero env one_iter_args 0
                ltac:(simpl; lia) ltac:(discriminate) ltac:(lia))
    as [Hiff Hprobe].
  split.
  - apply Hiff. reflexivity.
  - apply (Hprobe eq_refl (board 37) (BoardId 1) (start [Some 300] [])).
    discriminate.
Defined.

(** C7 as the claim states it fails with two iterations and a minimal
    node count of zero: [max_nodes / min_nodes] divides by zero. *)
Lemma C7_counterexample :
  2 <= iters zero_min_args
  /\ @cur_nodes env zero_min_args 0 = Raise ZeroDivisionError.
Proof. split; [simpl; lia | vm_compute; reflexivity]. Qed.


(** The calls of that run: the line, and the first position of the
    game. *)
Example sampled_calls :
  calls (trace (snd (main [["a"%string]] [[game 0 [5; 7]]] default_args
                       (start [Some 300; Some 300] [of_Z 10; of_Z 50]))))
  = [(BoardId 1, board 1); (GameId 1, board 5)].
Proof. reflexivity. Qed.

(** C9: a probe that the engine leaves without a score. *)
Lemma C9_witness :
  exists rest,
    trace (snd (maybe_analyse_board (board 0) (BoardId 1) default_args
                  (start [None] [])))
    = [] ++ [Write SampleFile (epd (board 0) None None); Flush SampleFile] ++ rest
    /\ (forall line, ~ In (Write SampleFile line) rest)
    /\ ((exists nodes, In (Analyse (board 0) nodes None) rest) ->
        forall line, ~ In (Write MisevalFile line) rest).
Proof.
  apply (C9_one_sample_record_first (board 0) (BoardId 1) default_args
           (start [None] []) _ _ ltac:(discriminate) (surjective_pairing _)).
Defined.

(** C10: a game of two moves, both selected. *)
Lemma C10_witness :
  exists new,
    trace (snd (analyse_pgn_list
                  [[game 0 [5; 7]]]
                  default_args 0
                  (start [Some 300; Some 300] [of_Z 10; of_Z 10])))
    = [] ++ new
    /\ Forall (fun c =>
                 exists g pre move post,
                   In g (concat [[game 0 [5; 7]]])
                   /\ mainline_moves g = pre ++ move :: post
                   /\ snd c = fold_left push (pre ++ [move]) (game_board g))
              (calls new)
    /\ (length (draws new) <= 2)%nat.
Proof.
  apply (C10_initial_position_never_sampled
           [[game 0 [5; 7]]]
           default_args 0 (start [Some 300; Some 300] [of_Z 10; of_Z 10])
           _ _ (surjective_pairing _)).
Defined.

(** X1: a probe that is solved at its third search. *)
Lemma X1_witness :
  exists new nodes,
    trace (snd (maybe_analyse_board (board 0) (BoardId 1) default_args
                  (start [Some 500; Some 400; Some 50] [])))
    = trace (start [Some 500; Some 400; Some 50] []) ++ new
    /\ searched new = map (fun n => (board 0, n)) nodes
    /\ map Ret nodes
       = map (@cur_nodes env default_args) (range (Z.of_nat (length nodes)))
    /\ (length nodes <= Z.to_nat (iters default_args))%nat.
Proof.
  apply (X1_searches_follow_schedule (board 0) (BoardId 1) default_args
           (start [Some 500; Some 400; Some 50] []) _ _
           (surjective_pairing _)).
Defined.

(** X2: the same probe. *)
Lemma X2_witness :
  exists new msg,
    trace (snd (maybe_analyse_board (board 0) (BoardId 1) default_args
                  (start [Some 500; Some 400; Some 50] [])))
    = trace (start [Some 500; Some 400; Some 50] []) ++ new
    /\ printed new = [Analyzing (BoardId 1) (board 0) (symbol Draw); msg]
    /\ is_report msg = true
    /\ length (written MisevalFile new) = (if is_unsolved msg then 1 else 0)%nat.
Proof.
  apply (X2_one_report_per_probe (board 0) (BoardId 1) default_args
           (start [Some 500; Some 400; Some 50] [])
           (snd (maybe_analyse_board (board 0) (BoardId 1) default_args
                   (start [Some 500; Some 400; Some 50] [])))).
  - discriminate.
  - reflexivity.
Defined.

(** X3: a drawn and a won position without an iteration. *)
Lemma X3_witness :
  maybe_analyse_board (board 0) (BoardId 1) no_iter_args (start [Some 0] [])
  = (Raise UnboundLocalError,
     state [Some 0] []
       [Write SampleFile (epd (board 0) None None); Flush SampleFile;
        Print (Analyzing (BoardId 1) (board 0) "=")])
  /\ exists label,
      spec_label Win 0 no_iter_args = Some label
      /\ maybe_analyse_board (board 37) (BoardId 1) no_iter_args
           (start [Some 0] [])
         = (Raise TypeError,
            state [Some 0] []
              [Write SampleFile (epd (board 37) None None); Flush SampleFile;
               Print (Analyzing (BoardId 1) (board 37) "+");
               Write MisevalFile
                 (epd (board 37) (Some (label_text label)) None);
               Flush MisevalFile]).
Proof.
  split.
  - apply (proj1 (X3_probe_without_iterations (board 0) (BoardId 1)
                    no_iter_args (start [Some 0] [])
                    ltac:(simpl; lia) ltac:(discriminate))).
    reflexivity.
  - apply (proj2 (X3_probe_without_iterations (board 37) (BoardId 1)
                    no_iter_args (start [Some 0] [])
                    ltac:(simpl; lia) ltac:(discriminate))).
    discriminate.
Defined.

(** X4: the first node count of the default options. *)
Lemma X4_witness : @cur_nodes env default_args 0 = Ret 10000.
Proof.
  apply (@X4_first_node_count_is_min_nodes env default_args
           (S754_finite false 7036874417766400 (-46))).
  - simpl. lia.
  - discriminate.
  - reflexivity.
  - vm_compute. reflexivity.
Defined.

(** X5: a run over one EPD line and one game. *)
Lemma X5_witness :
  exists new,
    trace (snd (main [["a"%string]] [[game 0 [5; 7]]] default_args
                  (start [Some 300; Some 300] [of_Z 10; of_Z 50])))
    = trace (start [Some 300; Some 300] [of_Z 10; of_Z 50]) ++ new
    /\ flushed_at_once new.
Proof.
  apply (X5_every_record_is_flushed [["a"%string]] [[game 0 [5; 7]]]
           default_args (start [Some 300; Some 300] [of_Z 10; of_Z 50])
           _ _ (surjective_pairing _)).
Defined.

(** X6: a run in which the engine fails a drawn position. *)
Lemma X6_witness :
  exists new,
    trace (snd (main [[""%string]] [[game 0 [5]]] default_args
                  (start [Some 500; Some 500; Some 500; Some 500; Some 500;
                          Some 300] [of_Z 10])))
    = trace (start [Some 500; Some 500; Some 500; Some 500; Some 500;
                    Some 300] [of_Z 10]) ++ new
    /\ (length (written MisevalFile new)
        <= length (written SampleFile new))%nat
    /\ incl (map (fun l => (epd_board l, hmvc l, fmvn l))
                 (written MisevalFile new))
            (map (fun l => (epd_board l, hmvc l, fmvn l))
                 (written SampleFile new)).
Proof.
  apply (X6_failures_are_among_samples [[""%string]] [[game 0 [5]]]
           default_args
           (start [Some 500; Some 500; Some 500; Some 500; Some 500;
                   Some 300] [of_Z 10])
           _ _ (surjective_pairing _)).
Defined.

(** X7: the same run. *)
Lemma X7_witness :
  exists new,
    trace (snd (main [[""%string]] [[game 0 [5]]] default_args
                  (start [Some 500; Some 500; Some 500; Some 500; Some 500;
                          Some 300] [of_Z 10])))
    = trace (start [Some 500; Some 500; Some 500; Some 500; Some 500;
                    Some 300] [of_Z 10]) ++ new
    /\ (length (searched new)
        <= Z.to_nat (iters default_args) * length (written SampleFile new))%nat.
Proof.
  apply (X7_search_budget [[""%string]] [[game 0 [5]]] default_args
           (start [Some 500; Some 500; Some 500; Some 500; Some 500;
                   Some 300] [of_Z 10])
           _ _ (surjective_pairing _)).
Defined.

(** X8: two EPD files of one and two lines, after five positions. *)
Lemma X8_witness :
  8 = 5 + Z.of_nat (length (concat [["a"%string]; ["bb"%string; "c"%string]]))
  /\ exists new,
      trace (snd (analyse_epd_list [["a"%string]; ["bb"%string; "c"%string]]
                    default_args 5 (start [Some 300; Some 300; Some 300] [])))
      = trace (start [Some 300; Some 300; Some 300] []) ++ new
      /\ map fst (calls new)
         = map (fun i => BoardId (5 + Z.of_nat i))
               (seq 1 (length (concat [["a"%string];
                                       ["bb"%string; "c"%string]]))).
Proof.
  apply (X8_epd_positions_numbered [["a"%string]; ["bb"%string; "c"%string]]
           default_args 5 8 (start [Some 300; Some 300; Some 300] [])
           (snd (analyse_epd_list [["a"%string]; ["bb"%string; "c"%string]]
                   default_args 5 (start [Some 300; Some 300; Some 300] [])))).
  reflexivity.
Defined.

(** X9: an empty line between two lines that parse. *)
Lemma X9_witness :
  @main strict_env [["a"%string; ""%string; "b"%string]] [] default_args
    (strict_start [Some 300; Some 300] [])
  = (Raise ValueError,
     snd (@analyse_epd_file strict_env ["a"%string] default_args 0
            (strict_start [Some 300; Some 300] []))).
Proof.
  apply (@X9_malformed_epd_line_stops_run strict_env
           [] [] ["a"%string] ["b"%string] ""%string [] default_args
           (strict_start [Some 300; Some 300] [])
           (strict_start [Some 300; Some 300] [])
           (snd (@analyse_epd_file strict_env ["a"%string] default_args 0
                   (strict_start [Some 300; Some 300] [])))
           0 1); reflexivity.
Defined.

(** X11: two directories on a platform other than Windows. *)
Lemma X11_witness :
  tablebase_directories "Linux" "/tb/3-4-5:/tb/6" = ["/tb/3-4-5"; "/tb/6"]%string.
Proof.
  apply (X11_directories_are_recovered "Linux" ["/tb/3-4-5"; "/tb/6"]%string).
  - discriminate.
  - repeat constructor.
Defined.

(** X12: the third iteration with both node counts at 10000. *)
Lemma X12_witness : @cur_nodes env equal_args 2 = Ret 10000.
Proof.
  rewrite (@X12_equal_bounds_give_constant_schedule env equal_args 2).
  - reflexivity.
  - discriminate.
  - vm_compute. reflexivity.
  - reflexivity.
Defined.

(** X13: a won position with a minimal node count of zero. *)
Lemma X13_witness :
  maybe_analyse_board (board 37) (BoardId 1) zero_min_args (start [Some 300] [])
  = (Raise ZeroDivisionError,
     state [Some 300] []
       [Write SampleFile (epd (board 37) None None); Flush SampleFile;
        Print (Analyzing (BoardId 1) (board 37) "+")]).
Proof.
  apply (X13_zero_min_nodes_fails_every_probe (board 37) (BoardId 1)
           zero_min_args (start [Some 300] [])).
  - simpl. lia.
  - reflexivity.
  - discriminate.
Defined.

End ScriptedRuns.
